(** * Request-governance layer of games_elt: rate limiter, retry wrapper,
    two-tier response cache.

    Shallow embedding of [games_elt/utils/api_utils.py] and
    [games_elt/utils/cache_manager.py], of the webhook notifier
    [games_elt/utils/webhook_manager.py] and of the cached lookups of
    [games_elt/riot_data_collector.py] that use them.

    Modelling conventions.
    - Python floats that hold times and durations are rationals ([Q]);
      rounding of float arithmetic and the special values (NaN, infinities)
      are not modelled.
    - Python code runs in a small state-and-exception monad [Eff]: a
      computation takes the current state and gives back either a raised
      exception or a value, together with the state reached.  There is no
      roll-back: the handler of a [try] starts from the state the body had
      reached when it raised.
    - The outside world is a clock and a chronological trace of the
      observable things the code did (sleeping, logging, calling the wrapped
      operation).  A call takes no time of its own; time passes when the
      code sleeps and when the environment lets it pass between calls. *)

From Stdlib Require Import QArith Qpower Lqa ZArith Lia List.
From stdpp Require Import base gmap strings list.

(** ** The effect monad *)

Definition Eff (St Ex A : Type) : Type := St -> (Ex + A) * St.

Definition ret {St Ex A} (a : A) : Eff St Ex A :=
  fun s => (inr a, s).

Definition bind {St Ex A B} (m : Eff St Ex A) (k : A -> Eff St Ex B)
  : Eff St Ex B :=
  fun s => match m s with
           | (inl e, s') => (inl e, s')
           | (inr a, s') => k a s'
           end.

Definition raise {St Ex A} (e : Ex) : Eff St Ex A :=
  fun s => (inl e, s).

(** [try: body except Exception as e: handler e]. *)
Definition try_except {St Ex A} (body : Eff St Ex A)
    (handler : Ex -> Eff St Ex A) : Eff St Ex A :=
  fun s => match body s with
           | (inl e, s') => handler e s'
           | (inr a, s') => (inr a, s')
           end.

Definition gets {St Ex A} (f : St -> A) : Eff St Ex A :=
  fun s => (inr (f s), s).

Definition modify {St Ex} (f : St -> St) : Eff St Ex unit :=
  fun s => (inr tt, f s).

(** Python's [if c: body] with no [else]. *)
Definition when {St Ex} (c : bool) (body : Eff St Ex unit) : Eff St Ex unit :=
  if c then body else ret tt.

(** Run a computation on the first component of a pair state. *)
Definition on_fst {S1 S2 Ex A} (m : Eff S1 Ex A) : Eff (S1 * S2) Ex A :=
  fun s => let '(r, s1) := m (fst s) in (r, (s1, snd s)).

Declare Scope eff_scope.
Delimit Scope eff_scope with eff.
Notation "'let!' x ':=' m 'in' k" := (bind m (fun x => k))
  (at level 10, x name, m at level 100, k at level 200) : eff_scope.
Notation "m '>>' k" := (bind m (fun _ => k))
  (at level 100, k at level 200, right associativity) : eff_scope.
Open Scope eff_scope.

(** ** Rational comparisons as Python writes them *)

Definition Qleb (a b : Q) : bool := Qle_bool a b.
Definition Qltb (a b : Q) : bool := negb (Qle_bool b a).

(** ** The world: clock and trace *)

Inductive log_level := DEBUG | WARNING | ERROR.

Inductive event :=
  | Slept (d : Q)            (* [time.sleep(d)] returned *)
  | Logged (lvl : log_level) (* a record was handed to the module logger *)
  | Called.                  (* the wrapped operation was invoked *)

Record world := World { now : Q; trace : list event }.

Definition emit (ev : event) (w : world) : world :=
  World (now w) (trace w ++ [ev]).

(** The environment lets [d] seconds pass. *)
Definition elapse (d : Q) (w : world) : world :=
  World (now w + d)%Q (trace w).

Definition sleeps_of (t : list event) : list Q :=
  flat_map (fun ev => match ev with Slept d => [d] | _ => [] end) t.


Definition Qsum (l : list Q) : Q := fold_right Qplus 0%Q l.

(** ** Python exceptions

    [E] is the type of the errors the wrapped operation raises itself; the
    other constructors are the built-in exceptions the modelled code can
    meet. *)

Inductive exn (E : Type) :=
  | ValueError       (* [time.sleep] of a negative duration *)
  | KeyError         (* subscript of a missing dict key, [del] of one *)
  | OSError          (* a file could not be opened, read or written *)
  | JSONDecodeError  (* [json.load] of a file that is not JSON *)
  | TypeError        (* arithmetic on a non-number, non-serialisable value *)
  | OpError (e : E). (* raised by the wrapped operation *)
Arguments ValueError {E}.
Arguments KeyError {E}.
Arguments OSError {E}.
Arguments JSONDecodeError {E}.
Arguments TypeError {E}.
Arguments OpError {E} e.

(** [time.time()] *)
Definition time_time {E} : Eff world (exn E) Q := gets now.

(** [time.sleep(d)]: refuses a negative duration, otherwise returns once
    [d] seconds have passed. *)
Definition time_sleep {E} (d : Q) : Eff world (exn E) unit :=
  if Qltb d 0 then raise ValueError
  else modify (fun w => emit (Slept d) (elapse d w)).

(** [logger.debug], [logger.warning], [logger.error]. *)
Definition logger {E} (lvl : log_level) : Eff world (exn E) unit :=
  modify (emit (Logged lvl)).

(** ** api_utils.py *)

Module ApiUtils.

(** *** class RateLimiter *)

Record RateLimiter := mkRateLimiter {
  requests_per_second : Z;
  last_request_time : Q;
  request_count : Z;
  window_start : Q
}.

Definition set_window (t : Q) (self : RateLimiter) : RateLimiter :=
  mkRateLimiter (requests_per_second self) (last_request_time self) 0 t.

Definition count_request (t : Q) (self : RateLimiter) : RateLimiter :=
  mkRateLimiter (requests_per_second self) t (request_count self + 1)
    (window_start self).

Section RateLimiter.
Context {E : Type}.
Local Abbreviation st := (world * RateLimiter)%type.

(** [RateLimiter.__init__] *)
Definition __init__ (requests_per_second : Z)
  : Eff world (exn E) RateLimiter :=
  let! t := time_time in
  ret (mkRateLimiter requests_per_second 0 0 t).

(** [RateLimiter.wait_if_needed] *)
Definition wait_if_needed : Eff st (exn E) unit :=
  let! current_time := on_fst time_time in
  (* Reset window if needed *)
  let! window_start0 := gets (fun s : st => window_start (snd s)) in
  when (Qleb 1 (current_time - window_start0))
    (modify (fun s : st => (fst s, set_window current_time (snd s)))) >>
  (* Check if we need to wait *)
  let! self := gets (fun s : st => snd s) in
  when (request_count self >=? requests_per_second self)%Z
    (let wait_time := (1 - (current_time - window_start self))%Q in
     when (Qltb 0 wait_time)
       (on_fst (logger DEBUG) >>
        on_fst (time_sleep wait_time) >>
        let! t := on_fst time_time in
        modify (fun s : st => (fst s, set_window t (snd s))))) >>
  modify (fun s : st => (fst s, count_request current_time (snd s))).

(** [n] calls in a row; before the [i]-th one the environment lets
    [delays !! i] seconds pass. *)
Fixpoint acquire_all (delays : list Q) : Eff st (exn E) unit :=
  match delays with
  | [] => ret tt
  | d :: delays' =>
      modify (fun s : st => (elapse d (fst s), snd s)) >>
      wait_if_needed >>
      acquire_all delays'
  end.
End RateLimiter.

(** *** retry_with_backoff

    The wrapped operation [func] is any Python callable: it works on a state
    of its own and either returns a value or raises an exception, an
    instance of [Exception], which [E] stands for. *)

Section Retry.
Context {St A E : Type}.
Variable func : St -> (E + A) * St.
Local Abbreviation st := (world * St)%type.

(** The call of [func] on the wrapper's arguments, recorded in the trace. *)
Definition call_func : Eff st (exn E) A :=
  on_fst (modify (emit Called)) >>
  fun s : st => match func (snd s) with
                | (inl e, s') => (inl (OpError e), (fst s, s'))
                | (inr a, s') => (inr a, (fst s, s'))
                end.

(** [range(n)] *)
Definition range (n : Z) : list Z := map Z.of_nat (seq 0 (Z.to_nat n)).

(** The [for attempt in range(max_retries)] loop of [wrapper], with the local
    [wait_time] threaded through; [Some a] is [return func(...)], [None] is
    the loop running to its end. *)
Fixpoint retry_loop (max_retries : Z) (attempts : list Z) (wait_time : Q)
  : Eff st (exn E) (option A) :=
  match attempts with
  | [] => ret None
  | attempt :: attempts' =>
      try_except
        (let! r := call_func in ret (Some r))
        (fun e =>
           if (attempt =? max_retries - 1)%Z then raise e (* Last attempt *)
           else
             on_fst (logger WARNING) >>
             on_fst (time_sleep wait_time) >>
             retry_loop max_retries attempts' (wait_time * 2)%Q)
  end.

(** [retry_with_backoff(max_retries, initial_wait)(func)]: the wrapper.  It
    returns [Some a] for a value of [func]; when the loop runs to its end
    the wrapper reaches its final [return None]. *)
Definition retry_with_backoff (max_retries : Z) (initial_wait : Q)
  : Eff st (exn E) (option A) :=
  retry_loop max_retries (range max_retries) initial_wait.

End Retry.

End ApiUtils.

(** ** cache_manager.py

    The cache directory is modelled as the finite map from the names of the
    files directly inside it to their contents; a key is used as the stem of
    a file name, as the code does, with no interpretation of path
    separators.  Deleting an existing file always succeeds (the cache owns
    its directory); opening, parsing and writing can fail. *)

Module CacheManager.

Section Cache.
Context {V : Type}.

(** A Python dict as the code reads it: its ["timestamp"] entry when there
    is one and it is a number, and its ["value"] entry when there is one. *)
Record data := Data { timestamp : option Q; value : option V }.

(** What a file holds: JSON text that [json.load] turns into a dict, or
    anything else (unreadable, truncated, not JSON, not a dict). *)
Inductive file :=
  | Json (d : data)
  | Corrupt.

Record CacheManager := mkCacheManager {
  ttl : Q;
  memory_cache : gmap string data
}.

Record state := State {
  env : world;
  disk : gmap string file;
  self : CacheManager
}.

(** How the attempt of [set] to write the file ends: it is written, or
    [open("w")] raises and the directory is left as it was, or [json.dump]
    raises after [open] truncated the file. *)
Inductive write_outcome := WriteOk | OpenFails | DumpFails.

Local Abbreviation M := (Eff state (exn Empty_set)).

Definition set_env (f : world -> world) (s : state) : state :=
  State (f (env s)) (disk s) (self s).

Definition set_disk (f : gmap string file -> gmap string file) (s : state)
  : state :=
  State (env s) (f (disk s)) (self s).

Definition set_memory (f : gmap string data -> gmap string data) (s : state)
  : state :=
  State (env s) (disk s) (mkCacheManager (ttl (self s)) (f (memory_cache (self s)))).

Definition clock : M Q := gets (fun s => now (env s)).

Definition log_error : M unit := modify (set_env (emit (Logged ERROR))).

(** [data["timestamp"]] used as a number, [data["value"]] *)
Definition item_timestamp (d : data) : M Q :=
  match timestamp d with Some t => ret t | None => raise KeyError end.

Definition item_value (d : data) : M V :=
  match value d with Some v => ret v | None => raise KeyError end.

(** [del self.memory_cache[key]] *)
Definition del_memory (key : string) : M unit :=
  let! m := gets (fun s => memory_cache (self s)) in
  match m !! key with
  | Some _ => modify (set_memory (delete key))
  | None => raise KeyError
  end.

(** [cache_file.exists()] *)
Definition file_exists (name : string) : M bool :=
  gets (fun s => match disk s !! name with Some _ => true | None => false end).

(** [with cache_file.open("r") as f: data = json.load(f)] *)
Definition read_json (name : string) : M data :=
  let! d := gets disk in
  match d !! name with
  | Some (Json dat) => ret dat
  | Some Corrupt => raise JSONDecodeError
  | None => raise OSError
  end.

(** [with cache_file.open("w") as f: json.dump(data, f)] *)
Definition write_json (o : write_outcome) (name : string) (dat : data)
  : M unit :=
  match o with
  | WriteOk => modify (set_disk (insert name (Json dat)))
  | OpenFails => raise OSError
  | DumpFails => modify (set_disk (insert name Corrupt)) >> raise TypeError
  end.

(** [cache_file.unlink()] *)
Definition unlink (name : string) : M unit :=
  let! d := gets disk in
  match d !! name with
  | Some _ => modify (set_disk (delete name))
  | None => raise OSError
  end.

Definition has_suffix (suffix s : string) : bool :=
  (String.length suffix <=? String.length s)%nat &&
  String.eqb
    (String.substring (String.length s - String.length suffix)
       (String.length suffix) s)
    suffix.

(** [self.cache_dir.glob("*.json")] *)
Definition glob_json : M (list string) :=
  let! d := gets disk in
  ret (List.filter (has_suffix ".json") (map fst (map_to_list d))).

(** [for x in l: body x] *)
Fixpoint for_each {A} (l : list A) (body : A -> M unit) : M unit :=
  match l with
  | [] => ret tt
  | x :: l' => body x >> for_each l' body
  end.

(** [CacheManager.__init__]; the directory is there afterwards, with
    whatever it held. *)
Definition __init__ (ttl : Q) : M unit :=
  modify (fun s => State (env s) (disk s) (mkCacheManager ttl ∅)).

(** [CacheManager._get_cache_file] *)
Definition _get_cache_file (key : string) : string :=
  (key ++ ".json")%string.

(** [CacheManager.get]; [None] is the final [return None]. *)
Definition get (key : string) : M (option V) :=
  (* Check memory cache first *)
  let! m := gets (fun s => memory_cache (self s)) in
  let! found :=
    match m !! key with
    | Some dat =>
        let! t := clock in
        let! ts := item_timestamp dat in
        let! ttl_ := gets (fun s => ttl (self s)) in
        if Qleb (t - ts) ttl_ then
          let! v := item_value dat in ret (Some v)
        else
          del_memory key >> ret None
    | None => ret None
    end in
  match found with
  | Some v => ret (Some v)
  | None =>
      (* Check file cache *)
      let cache_file := _get_cache_file key in
      let! there := file_exists cache_file in
      if there then
        try_except
          (let! dat := read_json cache_file in
           let! t := clock in
           let! ts := item_timestamp dat in
           let! ttl_ := gets (fun s => ttl (self s)) in
           if Qleb (t - ts) ttl_ then
             (* Update memory cache *)
             modify (set_memory (insert key dat)) >>
             let! v := item_value dat in ret (Some v)
           else
             (* Remove expired cache file *)
             unlink cache_file >> ret None)
          (fun e => log_error >> ret None)
      else ret None
  end.

(** [CacheManager.set]; [o] says how the write to the file ends. *)
Definition set (o : write_outcome) (key : string) (v : V) : M unit :=
  let! t := clock in
  let dat := Data (Some t) (Some v) in
  (* Update memory cache *)
  modify (set_memory (insert key dat)) >>
  (* Update file cache *)
  let cache_file := _get_cache_file key in
  try_except (write_json o cache_file dat) (fun e => log_error).

(** The list comprehension of [cleanup_expired]. *)
Fixpoint expired_among (current_time ttl_ : Q) (items : list (string * data))
  : M (list string) :=
  match items with
  | [] => ret []
  | (key, dat) :: items' =>
      let! ts := item_timestamp dat in
      let! keys := expired_among current_time ttl_ items' in
      ret (if Qltb ttl_ (current_time - ts) then key :: keys else keys)
  end.

(** The body of the file loop of [cleanup_expired]. *)
Definition cleanup_file (current_time ttl_ : Q) (cache_file : string)
  : M unit :=
  try_except
    (let! dat := read_json cache_file in
     let! ts := item_timestamp dat in
     when (Qltb ttl_ (current_time - ts)) (unlink cache_file))
    (fun e => log_error).

(** [CacheManager.cleanup_expired] *)
Definition cleanup_expired : M unit :=
  let! current_time := clock in
  let! ttl_ := gets (fun s => ttl (self s)) in
  (* Clean memory cache *)
  let! m := gets (fun s => memory_cache (self s)) in
  let! expired_keys := expired_among current_time ttl_ (map_to_list m) in
  for_each expired_keys del_memory >>
  (* Clean file cache *)
  let! files := glob_json in
  for_each files (cleanup_file current_time ttl_).

(** The environment lets [d] seconds pass. *)
Definition pass (d : Q) (s : state) : state := set_env (elapse d) s.

(** [key in self.memory_cache] *)
Definition in_memory (key : string) : M bool :=
  gets (fun s =>
    match memory_cache (self s) !! key with Some _ => true | None => false end).

(** The body of the file loop of [clear]. *)
Definition clear_file (cache_file : string) : M unit :=
  try_except (unlink cache_file) (fun e => log_error).

(** [CacheManager.clear]; [None] is the omitted key. *)
Definition clear (key : option string) : M unit :=
  match key with
  | None =>
      (* Clear all cache *)
      modify (set_memory (fun _ => ∅)) >>
      let! files := glob_json in
      for_each files clear_file
  | Some key =>
      (* Clear specific key *)
      let! cached := in_memory key in
      when cached (del_memory key) >>
      let cache_file := _get_cache_file key in
      let! there := file_exists cache_file in
      when there (try_except (unlink cache_file) (fun e => log_error))
  end.




End Cache.

End CacheManager.

(** ** webhook_manager.py

    [requests.post] is the environment: what an endpoint answers to a
    request, a status code or a raised exception (connection error, timeout),
    is given by [endpoint], which may depend on how many requests were
    posted before.  Every request posted is recorded, in order. *)

Module WebhookEventType.

Inductive t :=
  | GAME_START
  | GAME_END
  | OBJECTIVE_TAKEN
  | ERROR
  | PLAYER_PERFORMANCE.

#[global] Instance eq_dec : EqDecision t.
Proof. solve_decision. Defined.

End WebhookEventType.

Module WebhookManager.

Section Webhooks.
Context {D : Type}.

Record WebhookConfig := mkWebhookConfig {
  url : string;
  secret : option string;
  events : option (list WebhookEventType.t)
}.

(** The arguments of one [requests.post]: the URL, the [X-Webhook-Secret]
    header when there is one, and the three fields of the JSON payload.
    (The [Content-Type] header and the timeout are the same in every
    request.) *)
Record request := Request {
  post_url : string;
  x_webhook_secret : option string;
  payload_event_type : WebhookEventType.t;
  payload_timestamp : Q;
  payload_data : D
}.

Inductive response :=
  | Status (status_code : Z)
  | Raises.

Record state := State {
  env : world;
  posted : list request;
  webhooks : list WebhookConfig
}.

Variable endpoint : nat -> request -> response.

Local Abbreviation M := (Eff state (exn Empty_set)).

Definition set_env (f : world -> world) (s : state) : state :=
  State (f (env s)) (posted s) (webhooks s).

Definition set_webhooks (f : list WebhookConfig -> list WebhookConfig)
    (s : state) : state :=
  State (env s) (posted s) (f (webhooks s)).

(** [for x in l: body x] *)
Fixpoint for_each {A} (l : list A) (body : A -> M unit) : M unit :=
  match l with
  | [] => ret tt
  | x :: l' => body x >> for_each l' body
  end.

(** [requests.post(...)], giving the status code of the response. *)
Definition requests_post (req : request) : M Z :=
  fun s =>
    let s' := State (env s) (posted s ++ [req]) (webhooks s) in
    match endpoint (length (posted s)) req with
    | Status status_code => (inr status_code, s')
    | Raises => (inl OSError, s')
    end.

(** [WebhookManager.__init__] *)
Definition __init__ : M unit := modify (set_webhooks (fun _ => [])).

(** [WebhookManager.add_webhook] *)
Definition add_webhook (config : WebhookConfig) : M unit :=
  modify (set_webhooks (fun ws => ws ++ [config])).

(** [WebhookManager.remove_webhook] *)
Definition remove_webhook (url_ : string) : M unit :=
  modify (set_webhooks
            (List.filter (fun w => negb (String.eqb (url w) url_)))).

(** [webhook.events and event_type not in webhook.events]: an absent
    list and an empty list are both false. *)
Definition not_subscribed (webhook : WebhookConfig)
    (event_type : WebhookEventType.t) : bool :=
  match events webhook with
  | Some (ev :: evs) => negb (bool_decide (event_type ∈ ev :: evs))
  | Some [] => false
  | None => false
  end.

(** [if webhook.secret]: an absent secret and an empty one are both
    false. *)
Definition has_secret (webhook : WebhookConfig) : bool :=
  match secret webhook with
  | Some (String _ _) => true
  | Some EmptyString => false
  | None => false
  end.

(** [response.status_code not in (200, 201, 202, 204)] *)
Definition rejected (status_code : Z) : bool :=
  negb ((status_code =? 200) || (status_code =? 201) ||
        (status_code =? 202) || (status_code =? 204))%Z.

(** The body of the loop of [notify]. *)
Definition notify_webhook (event_type : WebhookEventType.t) (timestamp : Q)
    (data : D) (webhook : WebhookConfig) : M unit :=
  (* Skip if webhook doesn't subscribe to this event type *)
  if not_subscribed webhook event_type then ret tt
  else
    try_except
      ((* Add secret if configured *)
       let header := if has_secret webhook then secret webhook else None in
       let! status_code :=
         requests_post
           (Request (url webhook) header event_type timestamp data) in
       when (rejected status_code)
         (modify (set_env (emit (Logged WARNING)))))
      (fun e => modify (set_env (emit (Logged ERROR)))).

(** [WebhookManager.notify]; the payload's timestamp is the time of the
    call. *)
Definition notify (event_type : WebhookEventType.t) (data : D) : M unit :=
  let! timestamp := gets (fun s => now (env s)) in
  let! hooks := gets webhooks in
  for_each hooks (notify_webhook event_type timestamp data).

Definition notify_game_start (game_data : D) : M unit :=
  notify WebhookEventType.GAME_START game_data.

Definition notify_game_end (game_data : D) : M unit :=
  notify WebhookEventType.GAME_END game_data.

Definition notify_objective (objective_data : D) : M unit :=
  notify WebhookEventType.OBJECTIVE_TAKEN objective_data.

Definition notify_error (error_data : D) : M unit :=
  notify WebhookEventType.ERROR error_data.

Definition notify_player_performance (performance_data : D) : M unit :=
  notify WebhookEventType.PLAYER_PERFORMANCE performance_data.

End Webhooks.

End WebhookManager.

(** ** riot_data_collector.py: the cached lookups

    [get_account_by_riot_id] and [get_summoner_by_puuid] as callers of the
    cache.  The state of the collector is the state of its cache together
    with the rest [R] (rate limiter, webhooks, network).  The two methods
    they call, [self._make_request] and [self.webhook_manager.notify_error],
    are arbitrary computations on that state; [truthy] is the truth value
    Python gives a payload ([if cached_data:]), false for an empty dict. *)

Module RiotDataCollector.

(** An exception of the cache, seen from the collector. *)
Definition exn_cast {E} (e : exn Empty_set) : exn E :=
  match e with
  | ValueError => ValueError
  | KeyError => KeyError
  | OSError => OSError
  | JSONDecodeError => JSONDecodeError
  | TypeError => TypeError
  | OpError x => match x with end
  end.

Section Collector.
Context {V R E : Type}.
Variable truthy : V -> bool.
Variable region : string.

Local Abbreviation collector := (CacheManager.state (V:=V) * R)%type.
Local Abbreviation M := (Eff collector (exn E)).

(** The dict handed to [notify_error]. *)
Record error_data := ErrorData {
  error : exn E;
  endpoint : string;
  arguments : list (string * string)
}.

Variable _make_request : string -> M V.
Variable notify_error : error_data -> M unit.

(** [self.routing], as [__init__] sets it. *)
Definition routing : string :=
  if bool_decide (region ∈ ["tr1"; "eun1"; "euw1"]%string)
  then "europe"%string else "americas"%string.

Definition ACCOUNT_BASE_URL : string :=
  ("https://" ++ routing ++ ".api.riotgames.com")%string.

Definition LOL_BASE_URL : string :=
  ("https://" ++ region ++ ".api.riotgames.com")%string.

(** A call of a method of [self.cache]. *)
Definition on_cache {A} (m : Eff (CacheManager.state (V:=V)) (exn Empty_set) A)
  : M A :=
  fun s =>
    let '(r, c) := m (fst s) in
    (match r with inl e => inl (exn_cast e) | inr a => inr a end, (c, snd s)).

(** [if cached_data:] *)
Definition is_true (cached_data : option V) : bool :=
  match cached_data with Some v => truthy v | None => false end.

(** [RiotDataCollector.get_account_by_riot_id]; [o] says how the write of
    the cache file ends. *)
Definition get_account_by_riot_id (o : CacheManager.write_outcome)
    (game_name tag_line : string) : M (option V) :=
  let cache_key := ("account_" ++ game_name ++ "_" ++ tag_line)%string in
  (* Check cache first *)
  let! cached_data := on_cache (CacheManager.get cache_key) in
  if is_true cached_data then ret cached_data
  else
    (* Make API request *)
    let url :=
      (ACCOUNT_BASE_URL ++ "/riot/account/v1/accounts/by-riot-id/"
         ++ game_name ++ "/" ++ tag_line)%string in
    try_except
      (let! data := _make_request url in
       on_cache (CacheManager.set o cache_key data) >>
       ret (Some data))
      (fun e =>
         notify_error
           (ErrorData e "account_by_riot_id"
              [("game_name", game_name); ("tag_line", tag_line)]%string) >>
         raise e).

(** [RiotDataCollector.get_summoner_by_puuid] *)
Definition get_summoner_by_puuid (o : CacheManager.write_outcome)
    (puuid : string) : M (option V) :=
  let cache_key := ("summoner_" ++ puuid)%string in
  (* Check cache first *)
  let! cached_data := on_cache (CacheManager.get cache_key) in
  if is_true cached_data then ret cached_data
  else
    (* Make API request *)
    let url :=
      (LOL_BASE_URL ++ "/lol/summoner/v4/summoners/by-puuid/" ++ puuid)%string
    in
    try_except
      (let! data := _make_request url in
       on_cache (CacheManager.set o cache_key data) >>
       ret (Some data))
      (fun e =>
         notify_error
           (ErrorData e "summoner_by_puuid" [("puuid", puuid)]%string) >>
         raise e).

End Collector.

End RiotDataCollector.

(** ** Predicates and reference functions used by the statements *)

(** The invariant behind the timing bound of the rate limiter: of the [k]
    requests granted so far, all but the [request_count] ones of the current
    window fit into [n] earlier windows, each of which lasted a full
    second. *)
Definition windows (B : Z) (t0 : Q) (k : Z)
    (s : world * ApiUtils.RateLimiter) : Prop :=
  exists n : Z,
    (0 <= n)%Z /\
    (k - ApiUtils.request_count (snd s) <= B * n)%Z /\
    (inject_Z n <= ApiUtils.window_start (snd s) - t0)%Q /\
    (ApiUtils.window_start (snd s) <= now (fst s))%Q /\
    (0 <= ApiUtils.request_count (snd s) <= B)%Z /\
    ApiUtils.requests_per_second (snd s) = B.

(** What one call of [wait_if_needed] does to the window, by cases on its
    age and its count. *)
Definition granted (B : Z) (w : world) (rl : ApiUtils.RateLimiter)
    (w' : world) (rl' : ApiUtils.RateLimiter) : Prop :=
  (* at least a second old: reset, then counted; no suspension *)
  ((1 <= now w - ApiUtils.window_start rl)%Q ->
     w' = w /\ ApiUtils.window_start rl' = now w /\
     ApiUtils.request_count rl' = 1%Z) /\
  (* younger and full: suspended to its end, reset there, then counted *)
  ((now w - ApiUtils.window_start rl < 1)%Q ->
   (B <= ApiUtils.request_count rl)%Z ->
     trace w' =
       trace w ++
       [Logged DEBUG; Slept (1 - (now w - ApiUtils.window_start rl))] /\
     (now w' == ApiUtils.window_start rl + 1)%Q /\
     ApiUtils.window_start rl' = now w' /\
     ApiUtils.request_count rl' = 1%Z) /\
  (* younger with room: counted in the window *)
  ((now w - ApiUtils.window_start rl < 1)%Q ->
   (ApiUtils.request_count rl < B)%Z ->
     w' = w /\ ApiUtils.window_start rl' = ApiUtils.window_start rl /\
     ApiUtils.request_count rl' = (ApiUtils.request_count rl + 1)%Z).



Section CachePredicates.
Import CacheManager.
Context {V : Type}.

(** The age test of [cleanup_expired] on a dict and on a file: is it a
    record with a numeric timestamp older than [ttl_] at time [t]? *)
Definition is_expired (t ttl_ : Q) (dat : data (V:=V)) : bool :=
  match timestamp dat with
  | Some ts => Qltb ttl_ (t - ts)
  | None => false
  end.

Definition file_expired (t ttl_ : Q) (f : file (V:=V)) : bool :=
  match f with
  | Json dat => is_expired t ttl_ dat
  | Corrupt => false
  end.

(** Every dict of the memory tier has a numeric timestamp.  This holds of a
    new cache and is kept by [get], [set] and [cleanup_expired]. *)
Definition memory_stamped (s : state (V:=V)) : Prop :=
  forall (key : string) (dat : data),
    memory_cache (self s) !! key = Some dat -> is_Some (timestamp dat).



(** Reading the file as [cleanup_expired] does raises: it is not JSON, or it
    has no numeric timestamp. *)
Definition unreadable (f : file (V:=V)) : Prop :=
  f = Corrupt \/ exists dat, f = Json dat /\ timestamp dat = None.

(** The second half of [get], from the state [s1] the first half leaves. *)
Definition durable_lookup (key : string) (s1 : state (V:=V))
  : (exn Empty_set + option V) * state :=
  let t := now (env s1) in
  let ttl_ := ttl (self s1) in
  let failed := set_env (emit (Logged ERROR)) in
  match disk s1 !! _get_cache_file key with
  | None => (inr None, s1)
  | Some Corrupt => (inr None, failed s1)
  | Some (Json dat) =>
      match timestamp dat with
      | None => (inr None, failed s1)
      | Some ts =>
          if Qleb (t - ts) ttl_ then
            match value dat with
            | Some v => (inr (Some v), set_memory (insert key dat) s1)
            | None => (inr None, failed (set_memory (insert key dat) s1))
            end
          else (inr None, set_disk (delete (_get_cache_file key)) s1)
      end
  end.

(** One turn of the file loop of [cleanup_expired]. *)
Definition sweep_file (t ttl_ : Q) (name : string) (s : state (V:=V))
  : state :=
  match disk s !! name with
  | Some f =>
      if file_expired t ttl_ f then set_disk (delete name) s
      else match f with
           | Json dat =>
               match timestamp dat with
               | Some _ => s
               | None => set_env (emit (Logged ERROR)) s
               end
           | Corrupt => set_env (emit (Logged ERROR)) s
           end
  | None => set_env (emit (Logged ERROR)) s
  end.

End CachePredicates.

(** ** Concrete inputs on which the theorems are instantiated *)

(** An operation that fails on every call; its state counts the calls and
    each error carries the number of the call that raised it. *)
Definition failing (n : nat) : (nat + unit) * nat := (inl n, S n).

(** A world at time 0 in which nothing has happened yet. *)
Definition quiet : world := World 0 [].

(** A new cache with an empty directory. *)
Definition empty_cache (ttl_ : Q) : CacheManager.state (V:=nat) :=
  CacheManager.State quiet ∅ (CacheManager.mkCacheManager ttl_ ∅).

(** A new cache whose directory holds a file for key [k] that is not
    JSON. *)
Definition corrupt_cache : CacheManager.state (V:=nat) :=
  CacheManager.State quiet {[ "k.json"%string := CacheManager.Corrupt ]}
    (CacheManager.mkCacheManager 1 ∅).

Section CacheReference.
Import CacheManager.
Context {V : Type}.



(** Every dict of the memory tier and every JSON record of the directory has
    a numeric timestamp and a value: the records [set] writes.  (Files that
    are not JSON records may lie around.) *)
Definition complete (s : state (V:=V)) : Prop :=
  (forall key dat, memory_cache (self s) !! key = Some dat ->
     is_Some (timestamp dat) /\ is_Some (value dat)) /\
  (forall name dat, disk s !! name = Some (Json dat) ->
     is_Some (timestamp dat) /\ is_Some (value dat)).

End CacheReference.

Section WebhookReference.
Import WebhookManager.
Context {D : Type}.

(** A webhook is notified of an event when it names no events (no list or
    an empty one) or when its list has the event. *)
Definition subscribed (event_type : WebhookEventType.t)
    (webhook : WebhookConfig) : bool :=
  match events webhook with
  | None => true
  | Some [] => true
  | Some evs => bool_decide (event_type ∈ evs)
  end.

(** The request a webhook is sent: the secret header is there when the
    webhook has a secret that is not the empty string. *)
Definition request_for (event_type : WebhookEventType.t) (timestamp : Q)
    (data : D) (webhook : WebhookConfig) : request (D:=D) :=
  Request (url webhook)
    match secret webhook with
    | Some EmptyString => None
    | Some sec => Some sec
    | None => None
    end
    event_type timestamp data.

(** What is logged for the answer to a request: nothing for 200, 201, 202
    and 204, a warning for any other status, an error when the post raised. *)
Definition answer_log (r : response) : list event :=
  match r with
  | Status c =>
      if ((c =? 200) || (c =? 201) || (c =? 202) || (c =? 204))%Z then []
      else [Logged WARNING]
  | Raises => [Logged ERROR]
  end.

(** The log of a run of requests, the first of which is the [n]-th request
    posted. *)
Fixpoint answers_log (endpoint : nat -> request (D:=D) -> response)
    (n : nat) (reqs : list (request (D:=D))) : list event :=
  match reqs with
  | [] => []
  | req :: reqs' =>
      answer_log (endpoint n req) ++ answers_log endpoint (S n) reqs'
  end.

End WebhookReference.


(** A new limiter with a budget of zero. *)
Definition closed_limiter : ApiUtils.RateLimiter :=
  ApiUtils.mkRateLimiter 0 0 0 0.

(** A collector whose payloads are lists of numbers (an empty list is
    false), whose cache is new and whose remaining state counts the requests
    made. *)
Definition payload_truthy (v : list nat) : bool :=
  match v with [] => false | _ :: _ => true end.

Definition new_collector (ttl_ : Q)
  : CacheManager.state (V:=list nat) * nat :=
  (CacheManager.State quiet ∅ (CacheManager.mkCacheManager ttl_ ∅), 0%nat).

(** Requests that answer [[7]], that answer the empty payload, and that
    fail; each one is counted. *)
Definition request_ok (url : string)
  : Eff (CacheManager.state (V:=list nat) * nat) (exn unit) (list nat) :=
  fun s => (inr [7%nat], (fst s, S (snd s))).

Definition request_empty (url : string)
  : Eff (CacheManager.state (V:=list nat) * nat) (exn unit) (list nat) :=
  fun s => (inr [], (fst s, S (snd s))).

Definition request_fails (url : string)
  : Eff (CacheManager.state (V:=list nat) * nat) (exn unit) (list nat) :=
  fun s => (inl (OpError tt), (fst s, S (snd s))).

(** A notification that reaches no webhook. *)
Definition notify_nobody (d : RiotDataCollector.error_data (E:=unit))
  : Eff (CacheManager.state (V:=list nat) * nat) (exn unit) unit :=
  fun s => (inr tt, s).

(** ** Tactics that run the monadic code *)

Ltac run_eff :=
  unfold ApiUtils.wait_if_needed, ApiUtils.acquire_all, ApiUtils.__init__,
    bind, ret, gets, modify, when, on_fst, time_time, time_sleep, logger,
    raise;
  simpl.

Ltac run_cache :=
  cbv beta iota zeta delta
    [bind ret gets modify raise try_except when CacheManager.clock
     CacheManager.log_error CacheManager.item_timestamp
     CacheManager.item_value CacheManager.del_memory
     CacheManager.file_exists CacheManager.read_json
     CacheManager.write_json CacheManager.unlink];
  simpl.

(** * Proofs *)

(** ** Rational comparisons *)

Lemma Qleb_le a b : Qleb a b = true <-> (a <= b)%Q.
Proof. apply Qle_bool_iff. Qed.

Lemma Qleb_gt a b : Qleb a b = false <-> (b < a)%Q.
Proof.
  unfold Qleb. destruct (Qle_bool a b) eqn:H.
  - split; [discriminate|]. intros Hlt. apply Qle_bool_iff in H. lra.
  - split; [|reflexivity]. intros _.
    apply Qnot_le_lt. intros Hle. apply Qle_bool_iff in Hle. congruence.
Qed.

Lemma Qltb_lt a b : Qltb a b = true <-> (a < b)%Q.
Proof.
  unfold Qltb. rewrite negb_true_iff. apply (Qleb_gt b a).
Qed.

Lemma Qltb_ge a b : Qltb a b = false <-> (b <= a)%Q.
Proof.
  unfold Qltb. rewrite negb_false_iff. apply (Qleb_le b a).
Qed.

(** ** Traces *)

Lemma sleeps_of_app t1 t2 : sleeps_of (t1 ++ t2) = sleeps_of t1 ++ sleeps_of t2.
Proof. apply flat_map_app. Qed.


Lemma Qsum_app l1 l2 : (Qsum (l1 ++ l2) == Qsum l1 + Qsum l2)%Q.
Proof.
  induction l1 as [|x l1 IH]; simpl.
  - lra.
  - rewrite IH. lra.
Qed.

(** ** RateLimiter *)

Section RateLimiterProofs.
Import ApiUtils.
Context {E : Type}.
Local Abbreviation wait := (wait_if_needed (E:=E)).

(** The window is older than a second: it is reset, and the request is the
    first of the new window. *)
Lemma wait_reset (w : world) (rl : RateLimiter) :
  (0 < requests_per_second rl)%Z ->
  (1 <= now w - window_start rl)%Q ->
  wait (w, rl) =
    (inr tt, (w, mkRateLimiter (requests_per_second rl) (now w) 1 (now w))).
Proof.
  intros HB Hold. run_eff.
  apply Qleb_le in Hold. rewrite Hold. simpl.
  destruct (0 >=? requests_per_second rl)%Z eqn:Hge; [lia|]. reflexivity.
Qed.

(** The window is young and full: the caller sleeps to its end, a new window
    starts there, and the request is its first. *)
Lemma wait_sleep (w : world) (rl : RateLimiter) :
  (now w - window_start rl < 1)%Q ->
  (requests_per_second rl <= request_count rl)%Z ->
  let wait_time := (1 - (now w - window_start rl))%Q in
  wait (w, rl) =
    (inr tt,
     (emit (Slept wait_time) (elapse wait_time (emit (Logged DEBUG) w)),
      mkRateLimiter (requests_per_second rl) (now w) 1 (now w + wait_time)%Q)).
Proof.
  intros Hyoung Hfull wait_time. run_eff.
  apply Qleb_gt in Hyoung. rewrite Hyoung. simpl.
  destruct (request_count rl >=? requests_per_second rl)%Z eqn:Hge; [|lia].
  assert (Hpos : Qltb 0 (1 - (now w - window_start rl)) = true).
  { apply Qltb_lt. apply Qleb_gt in Hyoung. lra. }
  rewrite Hpos. simpl.
  assert (Hneg : Qltb (1 - (now w - window_start rl)) 0 = false).
  { apply Qltb_ge. apply Qltb_lt in Hpos. lra. }
  rewrite Hneg. reflexivity.
Qed.

(** The window is young and has room: the request is counted in it. *)
Lemma wait_pass (w : world) (rl : RateLimiter) :
  (now w - window_start rl < 1)%Q ->
  (request_count rl < requests_per_second rl)%Z ->
  wait (w, rl) = (inr tt, (w, count_request (now w) rl)).
Proof.
  intros Hyoung Hroom. run_eff.
  apply Qleb_gt in Hyoung. rewrite Hyoung. simpl.
  destruct (request_count rl >=? requests_per_second rl)%Z eqn:Hge; [lia|].
  reflexivity.
Qed.

Lemma windows_step (B : Z) (t0 : Q) (k : Z) (w : world) (rl : RateLimiter)
    (d : Q) :
  (0 < B)%Z -> (0 <= d)%Q -> windows B t0 k (w, rl) ->
  exists w' rl' tr,
    wait (elapse d w, rl) = (inr tt, (w', rl')) /\
    windows B t0 (k + 1) (w', rl') /\
    trace w' = trace w ++ tr /\
    (now w' == now w + d + Qsum (sleeps_of tr))%Q.
Proof.
  intros HB Hd (n & Hn & Hk & Hws & Hnow & Hc & Hrps). simpl in *.
  destruct (Qlt_le_dec (now (elapse d w) - window_start rl) 1) as [Hy|Ho].
  - destruct (Z_lt_le_dec (request_count rl) (requests_per_second rl))
      as [Hroom|Hfull].
    + rewrite (wait_pass _ _ Hy Hroom).
      exists (elapse d w), (count_request (now (elapse d w)) rl), [].
      split; [reflexivity|]. split.
      * exists n. simpl in *. repeat split; try lia; try lra.
      * simpl. split; [now rewrite app_nil_r | lra].
    + rewrite (wait_sleep _ _ Hy Hfull).
      eexists _, _, [Logged DEBUG; Slept _].
      split; [reflexivity|]. split.
      * exists (n + 1)%Z. simpl in *. rewrite inject_Z_plus.
        repeat split; try lia; try lra.
        change (inject_Z 1) with 1%Q. lra.
      * simpl. split; [now rewrite <- app_assoc | lra].
  - rewrite (wait_reset (elapse d w) rl) by (simpl in *; (lia || lra)).
    exists (elapse d w), (mkRateLimiter (requests_per_second rl)
      (now (elapse d w)) 1 (now (elapse d w))), [].
    split; [reflexivity|]. split.
    + exists (n + 1)%Z. simpl in *. rewrite inject_Z_plus.
      change (inject_Z 1) with 1%Q.
      repeat split; try lia; try lra.
    + simpl. split; [now rewrite app_nil_r | lra].
Qed.

Lemma windows_run (B : Z) (t0 : Q) (delays : list Q) :
  (0 < B)%Z -> Forall (fun d => 0 <= d)%Q delays ->
  forall (k : Z) (w : world) (rl : RateLimiter),
    windows B t0 k (w, rl) ->
    exists w' rl' tr,
      acquire_all (E:=E) delays (w, rl) = (inr tt, (w', rl')) /\
      windows B t0 (k + Z.of_nat (length delays)) (w', rl') /\
      trace w' = trace w ++ tr /\
      (now w' == now w + Qsum delays + Qsum (sleeps_of tr))%Q.
Proof.
  intros HB Hds. induction Hds as [|d delays Hd Hds IH]; intros k w rl Hinv.
  - exists w, rl, []. simpl. rewrite Z.add_0_r, app_nil_r.
    repeat split; [assumption | lra].
  - destruct (windows_step B t0 k w rl d HB Hd Hinv)
      as (w1 & rl1 & tr1 & Hrun1 & Hinv1 & Htr1 & Hnow1).
    destruct (IH (k + 1)%Z w1 rl1 Hinv1)
      as (w2 & rl2 & tr2 & Hrun2 & Hinv2 & Htr2 & Hnow2).
    exists w2, rl2, (tr1 ++ tr2).
    split; [|split; [|split]].
    + cbn [acquire_all]. unfold bind at 1 2. unfold modify at 1. simpl fst.
      simpl snd. rewrite Hrun1. exact Hrun2.
    + replace (k + Z.of_nat (length (d :: delays)))%Z
        with (k + 1 + Z.of_nat (length delays))%Z
        by (simpl length; lia).
      exact Hinv2.
    + rewrite Htr2, Htr1. now rewrite app_assoc.
    + rewrite sleeps_of_app, Qsum_app. simpl. lra.
Qed.

Lemma init_fresh (B : Z) (w : world) :
  __init__ (E:=E) B w = (inr (mkRateLimiter B 0 0 (now w)), w).
Proof. reflexivity. Qed.

Lemma wait_if_needed_granted (B : Z) (w : world) (rl : RateLimiter) :
  (0 < B)%Z -> requests_per_second rl = B -> (request_count rl <= B)%Z ->
  exists w' rl',
    wait (w, rl) = (inr tt, (w', rl')) /\
    requests_per_second rl' = B /\
    (request_count rl' <= B)%Z /\
    granted B w rl w' rl'.
Proof.
  intros HB Hrps Hc. subst B. unfold granted.
  destruct (Qlt_le_dec (now w - window_start rl) 1) as [Hy|Ho].
  - destruct (Z_lt_le_dec (request_count rl) (requests_per_second rl))
      as [Hroom|Hfull].
    + rewrite (wait_pass _ _ Hy Hroom).
      eexists _, _. split; [reflexivity|]. simpl.
      repeat split; try lia; try lra.
    + rewrite (wait_sleep _ _ Hy Hfull).
      eexists _, _. split; [reflexivity|]. simpl.
      repeat split; try lia; try lra.
      now rewrite <- app_assoc.
  - rewrite (wait_reset _ _ HB Ho).
    eexists _, _. split; [reflexivity|]. simpl.
    repeat split; try lia; try lra.
Qed.

Lemma acquire_all_within_budget (B : Z) (delays : list Q) :
  (0 < B)%Z ->
  forall (w : world) (rl : RateLimiter),
    requests_per_second rl = B -> (request_count rl <= B)%Z ->
    exists w' rl',
      acquire_all (E:=E) delays (w, rl) = (inr tt, (w', rl')) /\
      requests_per_second rl' = B /\
      (request_count rl' <= B)%Z.
Proof.
  intros HB. induction delays as [|d delays IH]; intros w rl Hrps Hc.
  - exists w, rl. auto.
  - destruct (wait_if_needed_granted B (elapse d w) rl HB Hrps Hc)
      as (w1 & rl1 & Hrun1 & Hrps1 & Hc1 & _).
    destruct (IH w1 rl1 Hrps1 Hc1) as (w2 & rl2 & Hrun2 & Hrps2 & Hc2).
    exists w2, rl2. split; [|auto].
    cbn [acquire_all]. unfold bind at 1 2. unfold modify at 1. simpl fst.
    simpl snd. rewrite Hrun1. exact Hrun2.
Qed.

(** C5. With a budget [B > 0], [wait_if_needed] on a limiter whose count is
    at most [B] returns normally and leaves a count of at most [B]: a window
    at least a second old is reset before the request is counted; a younger,
    full window makes the caller sleep to its end and a new window starts
    there before the request is counted; otherwise the request is counted in
    the window.  Hence on a new limiter the count is within the budget after
    every call, whatever time passes between the calls. *)
Theorem request_count_within_budget (B : Z) :
  (0 < B)%Z ->
  (forall (w : world) (rl : RateLimiter),
     requests_per_second rl = B -> (request_count rl <= B)%Z ->
     exists w' rl',
       wait (w, rl) = (inr tt, (w', rl')) /\
       requests_per_second rl' = B /\
       (request_count rl' <= B)%Z /\
       granted B w rl w' rl') /\
  (forall (w0 : world) (delays : list Q),
     exists rl0 w' rl',
       __init__ (E:=E) B w0 = (inr rl0, w0) /\
       acquire_all (E:=E) delays (w0, rl0) = (inr tt, (w', rl')) /\
       (request_count rl' <= B)%Z).
Proof.
  intros HB. split.
  - intros w rl. now apply wait_if_needed_granted.
  - intros w0 delays.
    destruct (acquire_all_within_budget B delays HB w0
                (mkRateLimiter B 0 0 (now w0)) eq_refl)
      as (w' & rl' & Hrun & _ & Hc); [simpl; lia|].
    exists (mkRateLimiter B 0 0 (now w0)), w', rl'.
    split; [apply init_fresh | auto].
Qed.

(** C2. [N] calls in a row on a new limiter of budget [B > 0] return
    normally, and the time that has passed since the limiter was made - the
    sleeps performed plus the time the environment let pass before each call
    - is at least [floor((N-1)/B)] seconds. *)
Theorem elapsed_at_least (B : Z) (w0 : world) (delays : list Q) :
  (0 < B)%Z -> Forall (fun d => 0 <= d)%Q delays ->
  exists rl0 w' rl' tr,
    __init__ (E:=E) B w0 = (inr rl0, w0) /\
    acquire_all (E:=E) delays (w0, rl0) = (inr tt, (w', rl')) /\
    trace w' = trace w0 ++ tr /\
    (now w' - now w0 == Qsum (sleeps_of tr) + Qsum delays)%Q /\
    (inject_Z ((Z.of_nat (length delays) - 1) / B)
       <= Qsum (sleeps_of tr) + Qsum delays)%Q.
Proof.
  intros HB Hds.
  set (rl0 := mkRateLimiter B 0 0 (now w0)).
  assert (Hinv : windows B (now w0) 0 (w0, rl0)).
  { exists 0%Z. simpl. change (inject_Z 0) with 0%Q.
    repeat split; try lia; try lra. }
  destruct (windows_run B (now w0) delays HB Hds 0%Z w0 rl0 Hinv)
    as (w' & rl' & tr & Hrun & Hinv' & Htr & Hnow).
  exists rl0, w', rl', tr.
  split; [apply init_fresh|]. split; [exact Hrun|]. split; [exact Htr|].
  split; [lra|].
  destruct Hinv' as (n & Hn & Hk & Hws & Hle & Hc & _). simpl in *.
  assert (Hdiv : ((Z.of_nat (length delays) - 1) / B <= n)%Z).
  { apply Z.lt_succ_r. apply Z.div_lt_upper_bound; lia. }
  rewrite Zle_Qle in Hdiv. lra.
Qed.

End RateLimiterProofs.

(** ** retry_with_backoff *)






Section RetryProofs.
Import ApiUtils.
Context {St A E : Type}.
Variable func : St -> (E + A) * St.

(** The state [func] leaves behind. *)
Local Abbreviation next := (fun s : St => snd (func s)).

Hypothesis always_fails : forall s : St, exists e : E, fst (func s) = inl e.





End RetryProofs.

(** C9. With [max_retries = 0] the wrapper returns [None]: it does not
    invoke the operation, sleeps and logs nothing, and raises nothing. *)
Theorem retry_zero_returns_none {St A E : Type} (func : St -> (E + A) * St)
    (initial_wait : Q) (wd : world) (s : St) :
  ApiUtils.retry_with_backoff func 0 initial_wait (wd, s)
    = (inr None, (wd, s)).
Proof.
  unfold ApiUtils.retry_with_backoff, ApiUtils.range.
  change (Z.to_nat 0) with 0%nat. cbn [seq map ApiUtils.retry_loop].
  reflexivity.
Qed.

(** ** Strings: file names *)








(** ** CacheManager *)

Section CacheProofs.
Import CacheManager.
Context {V : Type}.
Local Abbreviation state := (state (V:=V)).
Local Abbreviation file := (file (V:=V)).
Local Abbreviation data := (data (V:=V)).
Local Abbreviation failed := (set_env (V:=V) (emit (Logged ERROR))).

(** [get], by cases on the memory tier. *)
Lemma get_eq (key : string) (s : state) :
  get key s =
    match memory_cache (self s) !! key with
    | None => durable_lookup key s
    | Some dat =>
        match timestamp dat with
        | None => (inl KeyError, s)
        | Some ts =>
            if Qleb (now (env s) - ts) (ttl (self s)) then
              match value dat with
              | Some v => (inr (Some v), s)
              | None => (inl KeyError, s)
              end
            else durable_lookup key (set_memory (delete key) s)
        end
    end.
Proof.
  assert (Hdur : forall s1 : state,
    (let cache_file := _get_cache_file key in
      let! there := file_exists cache_file in
      if there then
        try_except
          (let! dat := read_json cache_file in
           let! t := clock in
           let! ts := item_timestamp dat in
           let! ttl_ := gets (fun s => ttl (self s)) in
           if Qleb (t - ts) ttl_ then
             modify (set_memory (insert key dat)) >>
             let! v := item_value dat in ret (Some v)
           else
             unlink cache_file >> ret None)
          (fun e => log_error >> ret None)
      else ret None) s1 = durable_lookup key s1).
  { intros s1. unfold durable_lookup. run_cache.
    destruct (disk s1 !! _get_cache_file key) as [[dat|]|] eqn:Hf; simpl;
      rewrite ?Hf; simpl; try reflexivity.
    destruct (timestamp dat) as [ts|]; simpl; [|reflexivity].
    destruct (Qleb (now (env s1) - ts) (ttl (self s1))); simpl.
    - destruct (value dat); reflexivity.
    - rewrite Hf. reflexivity. }
  unfold get. unfold bind at 1. unfold gets at 1.
  destruct (memory_cache (self s) !! key) as [dat|] eqn:Hm.
  - unfold bind at 1.
    unfold bind at 1. unfold clock at 1, gets at 1.
    unfold bind at 1. unfold item_timestamp at 1.
    destruct (timestamp dat) as [ts|]; [|reflexivity].
    unfold ret at 1. unfold bind at 1. unfold gets at 1.
    destruct (Qleb (now (env s) - ts) (ttl (self s))).
    + unfold bind at 1. unfold item_value at 1.
      destruct (value dat); reflexivity.
    + unfold bind at 1. unfold del_memory at 1.
      unfold bind at 1. unfold gets at 1. rewrite Hm.
      unfold modify at 1. unfold ret at 1. apply Hdur.
  - unfold bind at 1. unfold ret at 1. apply Hdur.
Qed.

(** [set], by cases on how the write ends. *)
Lemma set_eq (o : write_outcome) (key : string) (v : V) (s : state) :
  set o key v s =
    let dat := Data (Some (now (env s))) (Some v) in
    let s1 := set_memory (insert key dat) s in
    (inr tt,
     match o with
     | WriteOk => set_disk (insert (_get_cache_file key) (Json dat)) s1
     | OpenFails => failed s1
     | DumpFails =>
         failed (set_disk (insert (_get_cache_file key) Corrupt) s1)
     end).
Proof. destruct o; reflexivity. Qed.

Lemma set_returns (o : write_outcome) (key : string) (v : V) (s : state) :
  set o key v s = (inr tt, snd (set o key v s)).
Proof. now rewrite set_eq. Qed.

(** C6. [set(k, v)] followed by [get(k)] gives back [v], however the write
    to the file ended, when no more than the time to live passes in
    between. *)
Theorem set_then_get (o : write_outcome) (key : string) (v : V) (d : Q)
    (s : state) :
  (d <= ttl (self s))%Q ->
  exists s1 s2 : state,
    set o key v s = (inr tt, s1) /\
    get key (pass d s1) = (inr (Some v), s2).
Proof.
  intros Hd.
  assert (Hfresh : Qleb (now (env s) + d - now (env s)) (ttl (self s)) = true).
  { apply Qleb_le. lra. }
  destruct o; rewrite set_eq; eexists _, _; (split; [reflexivity|]);
    rewrite get_eq; simpl; rewrite lookup_insert_eq; simpl; rewrite Hfresh;
    reflexivity.
Qed.



(** *** cleanup_expired: the memory tier *)

Lemma expired_among_cons (t ttl_ : Q) (key : string) (dat : data)
    (items : list (string * data)) (s : state) :
  expired_among t ttl_ ((key, dat) :: items) s =
    match timestamp dat with
    | None => (inl KeyError, s)
    | Some ts =>
        match expired_among t ttl_ items s with
        | (inl e, s') => (inl e, s')
        | (inr keys, s') =>
            (inr (if Qltb ttl_ (t - ts) then key :: keys else keys), s')
        end
    end.
Proof.
  cbn [expired_among]. unfold bind, item_timestamp, ret, raise.
  destruct (timestamp dat); reflexivity.
Qed.

Lemma expired_among_spec (t ttl_ : Q) (items : list (string * data))
    (s : state) :
  (expired_among t ttl_ items s = (inl KeyError, s) /\
   exists key dat, (key, dat) ∈ items /\ timestamp dat = None) \/
  (exists keys : list string,
     expired_among t ttl_ items s = (inr keys, s) /\
     (forall key, key ∈ keys <->
        exists dat, (key, dat) ∈ items /\ is_expired t ttl_ dat = true) /\
     (NoDup (items.*1) -> NoDup keys)).
Proof.
  induction items as [|[key dat] items IH].
  - right. exists []. split; [reflexivity|]. split.
    + intros k. split.
      * intros H. inversion H.
      * intros (d & H & _). inversion H.
    + intros _. constructor.
  - rewrite expired_among_cons.
    destruct (timestamp dat) as [ts|] eqn:Hts.
    + destruct IH as [[Hrun (k & d & Hin & Hnone)]
                     |(keys & Hrun & Hkeys & Hnodup)].
      * left. rewrite Hrun. split; [reflexivity|].
        exists k, d. split; [now apply list_elem_of_further | assumption].
      * right. rewrite Hrun.
        assert (Hexp : is_expired t ttl_ dat = Qltb ttl_ (t - ts)).
        { unfold is_expired. now rewrite Hts. }
        eexists. split; [reflexivity|]. split.
        -- intros k. destruct (Qltb ttl_ (t - ts)) eqn:Hold.
           ++ rewrite elem_of_cons, Hkeys. split.
              ** intros [->|(d & Hin & Hd)].
                 --- exists dat. split; [apply list_elem_of_here|].
                     congruence.
                 --- exists d. split; [now apply list_elem_of_further|].
                     assumption.
              ** intros (d & Hin & Hd).
                 apply elem_of_cons in Hin as [Heq|Hin].
                 --- left. congruence.
                 --- right. eauto.
           ++ rewrite Hkeys. split.
              ** intros (d & Hin & Hd). exists d.
                 split; [now apply list_elem_of_further | assumption].
              ** intros (d & Hin & Hd).
                 apply elem_of_cons in Hin as [Heq|Hin]; [|eauto].
                 injection Heq as -> ->. congruence.
        -- intros Hnd. cbn in Hnd. apply NoDup_cons in Hnd as [Hnotin Hnd].
           specialize (Hnodup Hnd).
           destruct (Qltb ttl_ (t - ts)); [|assumption].
           apply NoDup_cons. split; [|assumption].
           intros Hin. apply Hkeys in Hin as (d & Hin & _).
           apply Hnotin.
           change key with (fst (key, d)). now apply list_elem_of_fmap_2.
    + left. split; [reflexivity|].
      exists key, dat. split; [apply list_elem_of_here | assumption].
Qed.

Lemma del_memory_all (keys : list string) :
  NoDup keys ->
  forall s : state,
    (forall key, key ∈ keys -> is_Some (memory_cache (self s) !! key)) ->
    exists s' : state,
      for_each keys del_memory s = (inr tt, s') /\
      env s' = env s /\ disk s' = disk s /\
      ttl (self s') = ttl (self s) /\
      forall key,
        memory_cache (self s') !! key =
          if bool_decide (key ∈ keys) then None
          else memory_cache (self s) !! key.
Proof.
  induction 1 as [|k keys Hnotin Hnd IH]; intros s Hin.
  - exists s. repeat split; auto.
  - destruct (Hin k (list_elem_of_here _ _)) as [d Hk].
    destruct (IH (set_memory (delete k) s)) as (s' & Hrun & He & Hd & Ht & Hm).
    { intros key Hkey. simpl. rewrite lookup_delete_ne.
      - apply Hin. now apply list_elem_of_further.
      - intros ->. contradiction. }
    exists s'. split; [|repeat split; try assumption].
    + cbn [for_each]. unfold bind at 1. unfold del_memory at 1.
      unfold bind at 1. unfold gets at 1. rewrite Hk. unfold modify at 1.
      exact Hrun.
    + intros key. rewrite Hm. simpl.
      destruct (decide (key = k)) as [->|Hne].
      * rewrite lookup_delete_eq.
        rewrite (bool_decide_eq_true_2 (k ∈ k :: keys))
          by apply list_elem_of_here.
        now destruct (bool_decide (k ∈ keys)).
      * rewrite lookup_delete_ne by congruence.
        destruct (bool_decide (key ∈ keys)) eqn:Hb.
        -- apply bool_decide_eq_true_1 in Hb.
           rewrite (bool_decide_eq_true_2 (key ∈ k :: keys))
             by now apply list_elem_of_further.
           reflexivity.
        -- apply bool_decide_eq_false_1 in Hb.
           rewrite (bool_decide_eq_false_2 (key ∈ k :: keys)); [reflexivity|].
           intros [Heq|Hin']%elem_of_cons; [congruence | contradiction].
Qed.

(** *** cleanup_expired: the files *)

Lemma cleanup_file_eq (t ttl_ : Q) (name : string) (s : state) :
  cleanup_file t ttl_ name s = (inr tt, sweep_file t ttl_ name s).
Proof.
  unfold cleanup_file, sweep_file, file_expired, is_expired. run_cache.
  destruct (disk s !! name) as [[dat|]|] eqn:Hf; simpl; try reflexivity.
  destruct (timestamp dat) as [ts|]; simpl; [|reflexivity].
  destruct (Qltb ttl_ (t - ts)); simpl; [|reflexivity].
  rewrite Hf. reflexivity.
Qed.

Lemma for_each_cleanup_file (t ttl_ : Q) (names : list string) (s : state) :
  for_each names (cleanup_file t ttl_) s =
    (inr tt, fold_left (fun s name => sweep_file t ttl_ name s) names s).
Proof.
  revert s. induction names as [|name names IH]; intros s; [reflexivity|].
  cbn [for_each fold_left]. unfold bind. rewrite cleanup_file_eq. apply IH.
Qed.

Lemma unreadable_not_expired (t ttl_ : Q) (f : file) :
  unreadable f -> file_expired t ttl_ f = false.
Proof.
  intros [->|(dat & -> & Hts)]; [reflexivity|].
  unfold file_expired, is_expired. now rewrite Hts.
Qed.

Lemma sweep_file_spec (t ttl_ : Q) (name : string) (s : state) :
  let s' := sweep_file t ttl_ name s in
  self s' = self s /\ now (env s') = now (env s) /\
  (forall n,
     disk s' !! n =
       if decide (n = name) then
         match disk s !! n with
         | Some f => if file_expired t ttl_ f then None else Some f
         | None => None
         end
       else disk s !! n) /\
  exists tr,
    trace (env s') = trace (env s) ++ tr /\
    (forall f, disk s !! name = Some f -> unreadable f ->
       Logged ERROR ∈ tr).
Proof.
  unfold sweep_file.
  destruct (disk s !! name) as [f|] eqn:Hf.
  - destruct (file_expired t ttl_ f) eqn:Hexp.
    + simpl. repeat split.
      * intros n. destruct (decide (n = name)) as [->|Hne].
        -- rewrite lookup_delete_eq, Hf, Hexp. reflexivity.
        -- now rewrite lookup_delete_ne.
      * exists []. rewrite app_nil_r. split; [reflexivity|].
        intros f' [= <-] Hun.
        rewrite (unreadable_not_expired _ _ _ Hun) in Hexp. discriminate.
    + assert (Hdisk : forall s1 : state, disk s1 = disk s -> forall n,
        disk s1 !! n =
          if decide (n = name) then
            match disk s !! n with
            | Some f => if file_expired t ttl_ f then None else Some f
            | None => None
            end
          else disk s !! n).
      { intros s1 -> n. destruct (decide (n = name)) as [->|Hne]; [|easy].
        now rewrite Hf, Hexp. }
      destruct f as [dat|]; [destruct (timestamp dat) as [ts|] eqn:Hts|].
      * repeat split; [now apply Hdisk|].
        exists []. rewrite app_nil_r. split; [reflexivity|].
        intros f' [= <-] [Hc|(dat' & [= <-] & Hnone)]; congruence.
      * simpl. repeat split; [now apply Hdisk|].
        exists [Logged ERROR]. split; [reflexivity|].
        intros _ _ _. apply list_elem_of_here.
      * simpl. repeat split; [now apply Hdisk|].
        exists [Logged ERROR]. split; [reflexivity|].
        intros _ _ _. apply list_elem_of_here.
  - simpl. repeat split.
    + intros n. destruct (decide (n = name)) as [->|Hne]; [|easy].
      now rewrite Hf.
    + exists [Logged ERROR]. split; [reflexivity|]. intros f [=].
Qed.

Lemma sweep_files_spec (t ttl_ : Q) (names : list string) :
  forall s : state,
    let s' := fold_left (fun s name => sweep_file t ttl_ name s) names s in
    self s' = self s /\ now (env s') = now (env s) /\
    (forall n,
       disk s' !! n =
         match disk s !! n with
         | Some f =>
             if bool_decide (n ∈ names) && file_expired t ttl_ f then None
             else Some f
         | None => None
         end) /\
    exists tr,
      trace (env s') = trace (env s) ++ tr /\
      (forall n f, n ∈ names -> disk s !! n = Some f -> unreadable f ->
         Logged ERROR ∈ tr).
Proof.
  induction names as [|name names IH]; intros s.
  - simpl. repeat split.
    + intros n. now destruct (disk s !! n).
    + exists []. rewrite app_nil_r. split; [reflexivity|].
      intros n f Hin. inversion Hin.
  - cbn [fold_left].
    destruct (sweep_file_spec t ttl_ name s) as (Hs1 & Hn1 & Hd1 & tr1 & Ht1 & He1).
    destruct (IH (sweep_file t ttl_ name s)) as (Hs2 & Hn2 & Hd2 & tr2 & Ht2 & He2).
    cbv zeta. split; [congruence|]. split; [congruence|]. split.
    + intros n. rewrite Hd2, Hd1.
      destruct (decide (n = name)) as [->|Hne].
      * rewrite (bool_decide_eq_true_2 (name ∈ name :: names))
          by apply list_elem_of_here.
        destruct (disk s !! name) as [f|]; [|reflexivity]. simpl.
        destruct (file_expired t ttl_ f) eqn:Hexp; [reflexivity|].
        rewrite Hexp. now rewrite andb_false_r.
      * destruct (disk s !! n) as [f|]; [|reflexivity].
        destruct (bool_decide (n ∈ names)) eqn:Hb.
        -- apply bool_decide_eq_true_1 in Hb.
           rewrite (bool_decide_eq_true_2 (n ∈ name :: names))
             by now apply list_elem_of_further.
           reflexivity.
        -- apply bool_decide_eq_false_1 in Hb.
           rewrite (bool_decide_eq_false_2 (n ∈ name :: names)); [reflexivity|].
           intros [Heq|Hin']%elem_of_cons; [congruence | contradiction].
    + exists (tr1 ++ tr2). split.
      * rewrite Ht2, Ht1. now rewrite app_assoc.
      * intros n f Hin Hf Hun. apply elem_of_app.
        destruct (decide (n = name)) as [->|Hne].
        -- left. now apply (He1 f).
        -- right. apply (He2 n f); [| |assumption].
           ++ apply elem_of_cons in Hin as [Heq|Hin]; [congruence|assumption].
           ++ rewrite Hd1. destruct (decide (n = name)); [congruence|assumption].
Qed.

Lemma glob_json_elem (d : gmap string file) (n : string) :
  n ∈ List.filter (has_suffix ".json") (map fst (map_to_list d)) <->
  has_suffix ".json" n = true /\ is_Some (d !! n).
Proof.
  rewrite list_elem_of_In, filter_In, in_map_iff. split.
  - intros [([n' f] & Hfst & Hin) Hsuf]. simpl in Hfst. subst n'.
    split; [assumption|]. exists f.
    apply elem_of_map_to_list. now apply list_elem_of_In.
  - intros [Hsuf [f Hf]]. split; [|assumption].
    exists (n, f). split; [reflexivity|].
    apply list_elem_of_In. now apply elem_of_map_to_list.
Qed.

(** *** cleanup_expired as a whole *)

Lemma cleanup_expired_eq (s : state) :
  cleanup_expired s =
    let t := now (env s) in
    let ttl_ := ttl (self s) in
    match expired_among t ttl_ (map_to_list (memory_cache (self s))) s with
    | (inl e, s0) => (inl e, s0)
    | (inr keys, s0) =>
        match for_each keys del_memory s0 with
        | (inl e, s1) => (inl e, s1)
        | (inr _, s1) =>
            for_each
              (List.filter (has_suffix ".json") (map fst (map_to_list (disk s1))))
              (cleanup_file t ttl_) s1
        end
    end.
Proof. reflexivity. Qed.

Lemma cleanup_expired_run (s : state) :
  let t := now (env s) in
  let ttl_ := ttl (self s) in
  (cleanup_expired s = (inl KeyError, s) /\ ~ memory_stamped s) \/
  (exists s' : state,
     cleanup_expired s = (inr tt, s') /\
     now (env s') = t /\ ttl (self s') = ttl_ /\
     (forall key,
        memory_cache (self s') !! key =
          match memory_cache (self s) !! key with
          | Some dat => if is_expired t ttl_ dat then None else Some dat
          | None => None
          end) /\
     (forall n,
        disk s' !! n =
          match disk s !! n with
          | Some f =>
              if has_suffix ".json" n && file_expired t ttl_ f then None
              else Some f
          | None => None
          end) /\
     exists tr,
       trace (env s') = trace (env s) ++ tr /\
       (forall n f, has_suffix ".json" n = true -> disk s !! n = Some f ->
          unreadable f -> Logged ERROR ∈ tr)).
Proof.
  intros t ttl_. rewrite cleanup_expired_eq. fold t. fold ttl_. cbv zeta.
  destruct (expired_among_spec t ttl_ (map_to_list (memory_cache (self s))) s)
    as [[Hrun (key & dat & Hin & Hnone)]|(keys & Hrun & Hkeys & Hnodup)];
    rewrite Hrun.
  - left. split; [reflexivity|]. intros Hst.
    apply elem_of_map_to_list in Hin.
    destruct (Hst key dat Hin) as [ts Hts]. congruence.
  - right.
    destruct (del_memory_all keys (Hnodup (NoDup_fst_map_to_list _)) s)
      as (s1 & Hdel & He1 & Hd1 & Ht1 & Hm1).
    { intros key [dat [Hin _]]%Hkeys. exists dat.
      now apply elem_of_map_to_list. }
    rewrite Hdel, for_each_cleanup_file.
    set (names := List.filter (has_suffix ".json")
                    (map fst (map_to_list (disk s1)))).
    destruct (sweep_files_spec t ttl_ names s1)
      as (Hs2 & Hn2 & Hd2 & tr & Htr & Herr).
    eexists. split; [reflexivity|].
    split; [rewrite Hn2, He1; reflexivity|].
    split; [rewrite Hs2, Ht1; reflexivity|].
    split; [|split].
    + intros key. rewrite Hs2, Hm1.
      destruct (memory_cache (self s) !! key) as [dat|] eqn:Hm.
      * destruct (is_expired t ttl_ dat) eqn:Hexp.
        -- rewrite bool_decide_eq_true_2; [reflexivity|].
           apply Hkeys. exists dat. split; [|assumption].
           now apply elem_of_map_to_list.
        -- rewrite bool_decide_eq_false_2; [reflexivity|].
           intros (dat' & Hin & Hexp')%Hkeys.
           apply elem_of_map_to_list in Hin. congruence.
      * now destruct (bool_decide (key ∈ keys)).
    + intros n. rewrite Hd2, Hd1.
      destruct (disk s !! n) as [f|] eqn:Hf; [|reflexivity].
      destruct (has_suffix ".json" n) eqn:Hsuf.
      * rewrite bool_decide_eq_true_2; [reflexivity|].
        apply glob_json_elem. rewrite Hd1. eauto.
      * rewrite bool_decide_eq_false_2; [reflexivity|].
        intros [Hsuf' _]%glob_json_elem. congruence.
    + exists tr. split; [rewrite Htr, He1; reflexivity|].
      intros n f Hsuf Hf Hun. apply (Herr n f); [| |assumption].
      * apply glob_json_elem. rewrite Hd1. eauto.
      * now rewrite Hd1.
Qed.

Lemma is_expired_true (t ttl_ : Q) (dat : data) :
  is_expired t ttl_ dat = true <->
  exists ts, timestamp dat = Some ts /\ (ttl_ < t - ts)%Q.
Proof.
  unfold is_expired. destruct (timestamp dat) as [ts|].
  - rewrite Qltb_lt. split; [eauto|]. now intros (ts' & [= <-] & H).
  - split; [discriminate|]. now intros (ts' & [=] & _).
Qed.


(** *** The memory tier keeps its timestamps *)

Lemma init_stamped (ttl_ : Q) (s : state) :
  memory_stamped (snd (__init__ ttl_ s)).
Proof. intros key dat. simpl. now rewrite lookup_empty. Qed.



Lemma get_stamped (key : string) (s : state) :
  memory_stamped s -> memory_stamped (snd (get key s)).
Proof.
  intros Hst.
  assert (Hdur : forall s1 : state,
    memory_stamped s1 -> memory_stamped (snd (durable_lookup key s1))).
  { intros s1 H1. unfold durable_lookup.
    destruct (disk s1 !! _get_cache_file key) as [[dat|]|]; try exact H1.
    destruct (timestamp dat) as [ts|] eqn:Hts; try exact H1.
    destruct (Qleb _ _); [|exact H1].
    assert (H2 : memory_stamped (set_memory (insert key dat) s1)).
    { intros k d. simpl. destruct (decide (k = key)) as [->|Hne].
      - rewrite lookup_insert_eq. intros [= <-]. eauto.
      - rewrite lookup_insert_ne by congruence. apply H1. }
    destruct (value dat); exact H2. }
  rewrite get_eq.
  destruct (memory_cache (self s) !! key) as [dat|] eqn:Hm; [|now apply Hdur].
  destruct (timestamp dat) as [ts|]; [|exact Hst].
  destruct (Qleb _ _).
  - destruct (value dat); exact Hst.
  - apply Hdur. intros k d. simpl.
    destruct (decide (k = key)) as [->|Hne].
    + now rewrite lookup_delete_eq.
    + rewrite lookup_delete_ne by congruence. apply Hst.
Qed.



(** C10. [cleanup_expired] leaves in place every file that cannot be read
    as a record with a numeric timestamp: the error is caught and logged.
    A file it removes is a [.json] file that parses and whose age exceeds
    the time to live. *)
Theorem cleanup_keeps_unreadable (s : state) (name : string) (f : file) :
  disk s !! name = Some f ->
  (unreadable f -> disk (snd (cleanup_expired s)) !! name = Some f) /\
  (unreadable f -> has_suffix ".json" name = true -> memory_stamped s ->
   exists (s' : state) (tr : list event),
     cleanup_expired s = (inr tt, s') /\
     trace (env s') = trace (env s) ++ tr /\ Logged ERROR ∈ tr) /\
  (disk (snd (cleanup_expired s)) !! name = None ->
   has_suffix ".json" name = true /\
   exists dat ts,
     f = Json dat /\ timestamp dat = Some ts /\
     (ttl (self s) < now (env s) - ts)%Q).
Proof.
  intros Hf.
  destruct (cleanup_expired_run s)
    as [[Hrun Hno]|(s' & Hrun & _ & _ & _ & Hd & tr & Htr & Herr)];
    rewrite Hrun; simpl.
  - split; [auto|]. split; [intros _ _ Hst; contradiction|].
    intros Hnone. congruence.
  - rewrite Hd, Hf. split; [|split].
    + intros Hun. rewrite (unreadable_not_expired _ _ _ Hun).
      now rewrite andb_false_r.
    + intros Hun Hsuf _. exists s', tr.
      split; [reflexivity|]. split; [exact Htr|]. now apply (Herr name f).
    + destruct (has_suffix ".json" name); [|discriminate]. simpl.
      destruct f as [dat|]; simpl; [|discriminate].
      destruct (is_expired _ _ dat) eqn:Hexp; [|discriminate].
      intros _. split; [reflexivity|]. exists dat.
      apply is_expired_true in Hexp as (ts & Hts & Hold). eauto.
Qed.

End CacheProofs.

(** ** The theorems at concrete inputs *)




(** Twenty calls in a row at a budget of ten. *)
Lemma elapsed_at_least_witness :
  (0 < 10)%Z /\ Forall (fun d => 0 <= d)%Q (repeat 0%Q 20) /\
  exists rl0 w' rl' tr,
    ApiUtils.__init__ (E:=Empty_set) 10 quiet = (inr rl0, quiet) /\
    ApiUtils.acquire_all (E:=Empty_set) (repeat 0%Q 20) (quiet, rl0)
      = (inr tt, (w', rl')) /\
    trace w' = trace quiet ++ tr /\
    (now w' - now quiet == Qsum (sleeps_of tr) + Qsum (repeat 0%Q 20))%Q /\
    (inject_Z ((Z.of_nat (length (repeat 0%Q 20)) - 1) / 10)
       <= Qsum (sleeps_of tr) + Qsum (repeat 0%Q 20))%Q.
Proof.
  assert (H : Forall (fun d => 0 <= d)%Q (repeat 0%Q 20)).
  { simpl. repeat (constructor; [discriminate|]). constructor. }
  split; [reflexivity|]. split; [exact H|].
  apply (elapsed_at_least (E:=Empty_set) 10 quiet (repeat 0%Q 20));
    [reflexivity | exact H].
Defined.

Lemma request_count_within_budget_witness :
  (0 < 10)%Z /\
  exists rl0 w' rl',
    ApiUtils.__init__ (E:=Empty_set) 10 quiet = (inr rl0, quiet) /\
    ApiUtils.acquire_all (E:=Empty_set) (repeat 0%Q 20) (quiet, rl0)
      = (inr tt, (w', rl')) /\
    (ApiUtils.request_count rl' <= 10)%Z.
Proof.
  split; [reflexivity|].
  apply (proj2 (request_count_within_budget (E:=Empty_set) 10 eq_refl)).
Defined.


(** [set], then [get] at once, on a cache with the default time to live. *)
Lemma set_then_get_witness :
  (0 <= CacheManager.ttl (CacheManager.self (empty_cache 3600)))%Q /\
  exists s1 s2,
    CacheManager.set CacheManager.WriteOk "test_key" 7%nat (empty_cache 3600)
      = (inr tt, s1) /\
    CacheManager.get "test_key" (CacheManager.pass 0 s1)
      = (inr (Some 7%nat), s2).
Proof.
  split; [discriminate|].
  apply (set_then_get CacheManager.WriteOk "test_key" 7%nat 0
           (empty_cache 3600)).
  discriminate.
Defined.




Lemma cleanup_keeps_unreadable_witness :
  CacheManager.disk corrupt_cache !! "k.json"%string
    = Some CacheManager.Corrupt /\
  unreadable (CacheManager.Corrupt (V:=nat)) /\
  CacheManager.disk (snd (CacheManager.cleanup_expired corrupt_cache))
    !! "k.json"%string = Some CacheManager.Corrupt.
Proof.
  assert (Hfile : CacheManager.disk corrupt_cache !! "k.json"%string
                  = Some CacheManager.Corrupt) by reflexivity.
  assert (Hun : unreadable (CacheManager.Corrupt (V:=nat)))
    by (left; reflexivity).
  split; [exact Hfile|]. split; [exact Hun|].
  exact (proj1 (cleanup_keeps_unreadable corrupt_cache "k.json"
                  CacheManager.Corrupt Hfile) Hun).
Defined.

(** ** CacheManager: the rest of the interface and how the calls compose *)

Section CacheMore.
Import CacheManager.
Context {V : Type}.
Local Abbreviation state := (state (V:=V)).
Local Abbreviation file := (file (V:=V)).
Local Abbreviation data := (data (V:=V)).





(** *** clear(): the file loop *)






(** [set] then [get] within the time to live, as a shared step. *)
Lemma set_then_get_aux (o : write_outcome) (key : string) (v : V) (d : Q)
    (s : state) :
  (d <= ttl (self s))%Q ->
  exists s1 s2 : state,
    set o key v s = (inr tt, s1) /\
    get key (pass d s1) = (inr (Some v), s2).
Proof.
  intros Hd.
  assert (Hfresh : Qleb (now (env s) + d - now (env s)) (ttl (self s)) = true).
  { apply Qleb_le. lra. }
  destruct o; rewrite set_eq; eexists _, _; (split; [reflexivity|]);
    rewrite get_eq; simpl; rewrite lookup_insert_eq; simpl; rewrite Hfresh;
    reflexivity.
Qed.


(** X4. A second [set] of a key replaces the first: [get] then returns the
    second value, however the two writes to the file ended, as long as no
    more than the time to live has passed since the second [set]. *)
Theorem set_overwrites (o1 o2 : write_outcome) (key : string) (v1 v2 : V)
    (d1 d2 : Q) (s : state) :
  (d2 <= ttl (self s))%Q ->
  exists s1 s2 s3 : state,
    set o1 key v1 s = (inr tt, s1) /\
    set o2 key v2 (pass d1 s1) = (inr tt, s2) /\
    get key (pass d2 s2) = (inr (Some v2), s3).
Proof.
  intros Hd.
  destruct (set_then_get_aux o2 key v2 d2 (pass d1 (snd (set o1 key v1 s))))
    as (s2 & s3 & Hset & Hget).
  { now rewrite set_eq; destruct o1. }
  exists (snd (set o1 key v1 s)), s2, s3.
  split; [apply set_returns|]. split; assumption.
Qed.




(** *** No call raises *)




Lemma complete_failed (s : state) :
  complete s -> complete (set_env (emit (Logged ERROR)) s).
Proof. intros H. exact H. Qed.







End CacheMore.

(** ** retry_with_backoff: any operation *)


Section RetryMore.
Import ApiUtils.
Context {St A E : Type}.
Variable func : St -> (E + A) * St.
Local Abbreviation next := (fun s : St => snd (func s)).





(** X11. With [max_retries] zero or negative the wrapper returns [None]
    without invoking the operation, sleeping or logging. *)
Theorem retry_nonpositive (m : Z) (w : Q) (wd : world) (s : St) :
  (m <= 0)%Z ->
  retry_with_backoff func m w (wd, s) = (inr None, (wd, s)).
Proof.
  intros Hm. unfold retry_with_backoff, range.
  replace (Z.to_nat m) with 0%nat by lia. reflexivity.
Qed.


End RetryMore.

(** ** RateLimiter: bursts, throttling, any budget *)

Section RateLimiterMore.
Import ApiUtils.
Context {E : Type}.
Local Abbreviation wait := (wait_if_needed (E:=E)).

(** The window is at least a second old and the budget is zero or less: the
    window is reset, found full at once, and the caller sleeps a second. *)
Lemma wait_reset_sleep (w : world) (rl : RateLimiter) :
  (requests_per_second rl <= 0)%Z ->
  (1 <= now w - window_start rl)%Q ->
  let wait_time := (1 - (now w - now w))%Q in
  wait (w, rl) =
    (inr tt,
     (emit (Slept wait_time) (elapse wait_time (emit (Logged DEBUG) w)),
      mkRateLimiter (requests_per_second rl) (now w) 1 (now w + wait_time)%Q)).
Proof.
  intros HB Hold wait_time. run_eff.
  apply Qleb_le in Hold. rewrite Hold. simpl.
  destruct (0 >=? requests_per_second rl)%Z eqn:Hge; [|lia].
  assert (Hpos : Qltb 0 (1 - (now w - now w)) = true).
  { apply Qltb_lt. lra. }
  rewrite Hpos. simpl.
  assert (Hneg : Qltb (1 - (now w - now w)) 0 = false).
  { apply Qltb_ge. lra. }
  rewrite Hneg. reflexivity.
Qed.

Lemma wait_if_needed_total_aux (w : world) (rl : RateLimiter) :
  exists w' rl', wait (w, rl) = (inr tt, (w', rl')).
Proof.
  destruct (Qlt_le_dec (now w - window_start rl) 1) as [Hy|Ho].
  - destruct (Z_lt_le_dec (request_count rl) (requests_per_second rl))
      as [Hroom|Hfull].
    + rewrite (wait_pass _ _ Hy Hroom). eauto.
    + rewrite (wait_sleep _ _ Hy Hfull). eauto.
  - destruct (Z_lt_le_dec 0 (requests_per_second rl)) as [Hpos|Hnonpos].
    + rewrite (wait_reset _ _ Hpos Ho). eauto.
    + rewrite (wait_reset_sleep _ _ Hnonpos Ho). eauto.
Qed.

(** X13. [wait_if_needed] cannot fail, whatever the budget and the state of
    the limiter: it returns normally after at most one sleep, and a sleep
    lasts at most a second when the window did not start in the future. *)
Theorem wait_if_needed_total (w : world) (rl : RateLimiter) :
  exists w' rl' tr,
    wait (w, rl) = (inr tt, (w', rl')) /\
    trace w' = trace w ++ tr /\
    requests_per_second rl' = requests_per_second rl /\
    (tr = [] /\ now w' = now w \/
     exists d : Q,
       tr = [Logged DEBUG; Slept d] /\ (0 < d)%Q /\
       (now w' == now w + d)%Q /\
       ((window_start rl <= now w)%Q -> (d <= 1)%Q)).
Proof.
  destruct (Qlt_le_dec (now w - window_start rl) 1) as [Hy|Ho].
  - destruct (Z_lt_le_dec (request_count rl) (requests_per_second rl))
      as [Hroom|Hfull].
    + rewrite (wait_pass _ _ Hy Hroom). exists w, (count_request (now w) rl), [].
      rewrite app_nil_r. repeat split. now left.
    + rewrite (wait_sleep _ _ Hy Hfull). eexists _, _, _.
      split; [reflexivity|]. simpl. split; [now rewrite <- app_assoc|].
      split; [reflexivity|]. right. eexists. split; [reflexivity|].
      repeat split; intros; lra.
  - destruct (Z_lt_le_dec 0 (requests_per_second rl)) as [Hpos|Hnonpos].
    + rewrite (wait_reset _ _ Hpos Ho). eexists w, _, [].
      rewrite app_nil_r. repeat split. now left.
    + rewrite (wait_reset_sleep _ _ Hnonpos Ho). eexists _, _, _.
      split; [reflexivity|]. simpl. split; [now rewrite <- app_assoc|].
      split; [reflexivity|]. right. eexists. split; [reflexivity|].
      repeat split; intros; lra.
Qed.

Lemma acquire_all_cons (d : Q) (delays : list Q) (w : world)
    (rl : RateLimiter) (w1 : world) (rl1 : RateLimiter) :
  wait (elapse d w, rl) = (inr tt, (w1, rl1)) ->
  acquire_all (E:=E) (d :: delays) (w, rl)
    = acquire_all (E:=E) delays (w1, rl1).
Proof.
  intros Hrun. cbn [acquire_all]. unfold bind at 1 2. unfold modify at 1.
  simpl fst. simpl snd. now rewrite Hrun.
Qed.

Lemma acquire_all_app (l1 l2 : list Q) :
  forall (s s1 : world * RateLimiter),
    acquire_all (E:=E) l1 s = (inr tt, s1) ->
    acquire_all (E:=E) (l1 ++ l2) s = acquire_all (E:=E) l2 s1.
Proof.
  induction l1 as [|d l1 IH]; intros [w rl] s1 Hrun.
  - injection Hrun as <-. reflexivity.
  - destruct (wait_if_needed_total_aux (elapse d w) rl) as (w1 & rl1 & Hw).
    rewrite (acquire_all_cons _ _ _ _ _ _ Hw) in Hrun.
    rewrite <- app_comm_cons, (acquire_all_cons _ _ _ _ _ _ Hw).
    now apply IH.
Qed.

(** Calls that find room in a window younger than a second. *)
Lemma burst_run (B : Z) (delays : list Q) :
  Forall (fun d => 0 <= d)%Q delays ->
  forall (w : world) (rl : RateLimiter),
    requests_per_second rl = B ->
    (request_count rl + Z.of_nat (length delays) <= B)%Z ->
    (now w - window_start rl + Qsum delays < 1)%Q ->
    exists w' rl',
      acquire_all (E:=E) delays (w, rl) = (inr tt, (w', rl')) /\
      trace w' = trace w /\
      (now w' == now w + Qsum delays)%Q /\
      window_start rl' = window_start rl /\
      request_count rl' = (request_count rl + Z.of_nat (length delays))%Z /\
      requests_per_second rl' = B.
Proof.
  induction 1 as [|d delays Hd Hds IH]; intros w rl HB Hc Hq.
  - exists w, rl. simpl. repeat split; first [assumption | lia | lra].
  - assert (Hrest : (0 <= Qsum delays)%Q).
    { clear -Hds. induction Hds as [|x l Hx Hl IHl]; simpl; lra. }
    simpl in Hq. simpl length in Hc.
    assert (Hy : (now (elapse d w) - window_start rl < 1)%Q) by (simpl; lra).
    assert (Hroom : (request_count rl < requests_per_second rl)%Z) by lia.
    rewrite (acquire_all_cons _ _ _ _ _ _ (wait_pass _ _ Hy Hroom)).
    destruct (IH (elapse d w) (count_request (now (elapse d w)) rl))
      as (w' & rl' & Hrun & Htr & Hnow & Hws & Hcount & Hrps);
      [assumption | simpl; lia | simpl; lra |].
    exists w', rl'. split; [exact Hrun|]. simpl in *.
    repeat split; try assumption; try lia; try lra.
Qed.

(** X14. Bursts pass: on a new limiter of budget [B], up to [B] calls made
    within less than a second of its creation are all granted without any
    sleep. *)
Theorem burst_passes (B : Z) (w0 : world) (delays : list Q) :
  Forall (fun d => 0 <= d)%Q delays ->
  (Z.of_nat (length delays) <= B)%Z ->
  (Qsum delays < 1)%Q ->
  exists rl0 w' rl',
    __init__ (E:=E) B w0 = (inr rl0, w0) /\
    acquire_all (E:=E) delays (w0, rl0) = (inr tt, (w', rl')) /\
    trace w' = trace w0 /\
    (now w' == now w0 + Qsum delays)%Q /\
    request_count rl' = Z.of_nat (length delays).
Proof.
  intros Hds Hlen Hsum.
  destruct (burst_run B delays Hds w0 (mkRateLimiter B 0 0 (now w0)))
    as (w' & rl' & Hrun & Htr & Hnow & _ & Hc & _);
    [reflexivity | simpl; lia | simpl; lra |].
  exists (mkRateLimiter B 0 0 (now w0)), w', rl'.
  split; [reflexivity|]. simpl in Hc. auto.
Qed.

(** X15. The limit engages: when [B] calls have been granted within a
    window, one more call in the same window sleeps until the window is a
    second old, so that it returns exactly one second after the creation of
    the limiter, as the first request of a new window. *)
Theorem burst_then_sleep (B : Z) (w0 : world) (delays : list Q) (d : Q) :
  Forall (fun d => 0 <= d)%Q delays ->
  Z.of_nat (length delays) = B ->
  (0 <= d)%Q -> (Qsum delays + d < 1)%Q ->
  exists rl0 w' rl' (x : Q),
    __init__ (E:=E) B w0 = (inr rl0, w0) /\
    acquire_all (E:=E) (delays ++ [d]) (w0, rl0) = (inr tt, (w', rl')) /\
    trace w' = trace w0 ++ [Logged DEBUG; Slept x] /\
    (x == 1 - (Qsum delays + d))%Q /\
    (now w' == now w0 + 1)%Q /\
    window_start rl' = now w' /\
    request_count rl' = 1%Z.
Proof.
  intros Hds Hlen Hd Hsum.
  destruct (burst_run B delays Hds w0 (mkRateLimiter B 0 0 (now w0)))
    as (w1 & rl1 & Hrun & Htr & Hnow & Hws & Hc & Hrps);
    [reflexivity | simpl; lia | simpl; lra |].
  simpl in Hws, Hc.
  assert (Hy : (now (elapse d w1) - window_start rl1 < 1)%Q).
  { rewrite Hws. simpl. lra. }
  assert (Hfull : (requests_per_second rl1 <= request_count rl1)%Z) by lia.
  exists (mkRateLimiter B 0 0 (now w0)). eexists _, _, _.
  split; [reflexivity|].
  rewrite (acquire_all_app _ _ _ _ Hrun).
  rewrite (acquire_all_cons _ _ _ _ _ _ (wait_sleep _ _ Hy Hfull)).
  split; [reflexivity|]. simpl. rewrite Htr, Hws.
  split; [now rewrite <- app_assoc|].
  repeat split; lra.
Qed.

(** X16. A budget of zero (or less) does not block for ever: every call
    sleeps once - a full second when the window was at least a second old,
    the rest of the window otherwise - and is then granted as the first
    request of a new window. *)
Theorem zero_budget_sleeps (w : world) (rl : RateLimiter) :
  (requests_per_second rl <= 0)%Z ->
  (requests_per_second rl <= request_count rl)%Z ->
  exists w' rl' (d : Q),
    wait (w, rl) = (inr tt, (w', rl')) /\
    trace w' = trace w ++ [Logged DEBUG; Slept d] /\
    ((1 <= now w - window_start rl)%Q -> (d == 1)%Q) /\
    ((now w - window_start rl < 1)%Q ->
       (d == 1 - (now w - window_start rl))%Q) /\
    window_start rl' = now w' /\
    request_count rl' = 1%Z.
Proof.
  intros HB Hc.
  destruct (Qlt_le_dec (now w - window_start rl) 1) as [Hy|Ho].
  - rewrite (wait_sleep _ _ Hy Hc). eexists _, _, _.
    split; [reflexivity|]. simpl. split; [now rewrite <- app_assoc|].
    repeat split; intros; lra.
  - rewrite (wait_reset_sleep _ _ HB Ho). eexists _, _, _.
    split; [reflexivity|]. simpl. split; [now rewrite <- app_assoc|].
    repeat split; intros; lra.
Qed.

End RateLimiterMore.

(** ** WebhookManager *)

Section WebhookProofs.
Import WebhookManager.
Context {D : Type}.
Variable endpoint : nat -> request (D:=D) -> response.
Local Abbreviation state := (state (D:=D)).
Local Abbreviation WebhookConfig := WebhookConfig.

Lemma not_subscribed_subscribed (event_type : WebhookEventType.t)
    (webhook : WebhookConfig) :
  not_subscribed webhook event_type = negb (subscribed event_type webhook).
Proof.
  unfold not_subscribed, subscribed.
  destruct (events webhook) as [[|ev evs]|]; reflexivity.
Qed.

(** One turn of the loop of [notify]. *)
Lemma notify_webhook_eq (event_type : WebhookEventType.t) (t : Q) (data : D)
    (webhook : WebhookConfig) (s : state) :
  notify_webhook endpoint event_type t data webhook s =
    (inr tt,
     if subscribed event_type webhook then
       let req := request_for event_type t data webhook in
       State
         (World (now (env s))
            (trace (env s) ++ answer_log (endpoint (length (posted s)) req)))
         (posted s ++ [req]) (webhooks s)
     else s).
Proof.
  unfold notify_webhook. rewrite not_subscribed_subscribed.
  destruct (subscribed event_type webhook); [|reflexivity]. simpl.
  assert (Hreq :
    Request (url webhook)
      (if has_secret webhook then secret webhook else None)
      event_type t data
    = request_for event_type t data webhook).
  { unfold request_for, has_secret.
    now destruct (secret webhook) as [[|c sec]|]. }
  rewrite Hreq.
  unfold try_except, bind, requests_post, when, modify, ret, set_env, emit.
  destruct s as [[t0 tr] p ws]. simpl.
  destruct (endpoint (length p) (request_for event_type t data webhook))
    as [c|]; simpl; [|reflexivity].
  unfold rejected.
  destruct ((c =? 200) || (c =? 201) || (c =? 202) || (c =? 204))%Z; simpl;
    [now rewrite app_nil_r | reflexivity].
Qed.

Lemma notify_webhooks_run (event_type : WebhookEventType.t) (t : Q)
    (data : D) (hooks : list WebhookConfig) :
  forall s : state,
    let reqs :=
      map (request_for event_type t data)
        (List.filter (subscribed event_type) hooks) in
    exists s' : state,
      for_each hooks (notify_webhook endpoint event_type t data) s
        = (inr tt, s') /\
      webhooks s' = webhooks s /\
      now (env s') = now (env s) /\
      posted s' = posted s ++ reqs /\
      trace (env s')
        = trace (env s) ++ answers_log endpoint (length (posted s)) reqs.
Proof.
  induction hooks as [|webhook hooks IH]; intros s reqs.
  - exists s. unfold reqs. simpl. rewrite !app_nil_r. auto.
  - cbn [for_each]. unfold bind. rewrite notify_webhook_eq.
    unfold reqs. cbn [List.filter].
    destruct (subscribed event_type webhook).
    + match goal with
      | |- context [for_each hooks _ ?s1] =>
          destruct (IH s1) as (s' & Hrun & Hw & Hn & Hp & Ht)
      end.
      exists s'. split; [exact Hrun|]. simpl in Hw, Hn, Hp, Ht.
      split; [exact Hw|]. split; [exact Hn|]. split.
      * rewrite Hp. simpl. now rewrite <- app_assoc.
      * rewrite Ht. simpl. rewrite length_app. simpl.
        replace (length (posted s) + 1)%nat with (S (length (posted s)))
          by lia.
        now rewrite <- app_assoc.
    + apply IH.
Qed.

Lemma notify_run (event_type : WebhookEventType.t) (data : D) (s : state) :
  let reqs :=
    map (request_for event_type (now (env s)) data)
      (List.filter (subscribed event_type) (webhooks s)) in
  exists s' : state,
    notify endpoint event_type data s = (inr tt, s') /\
    webhooks s' = webhooks s /\
    now (env s') = now (env s) /\
    posted s' = posted s ++ reqs /\
    trace (env s')
      = trace (env s) ++ answers_log endpoint (length (posted s)) reqs.
Proof.
  apply (notify_webhooks_run event_type (now (env s)) data (webhooks s) s).
Qed.

(** X17. [notify] never raises, and whatever the endpoints answer - a
    failure of one does not stop the loop - it posts exactly one request to
    each registered webhook that is subscribed to the event, in the order of
    registration, and to no other. *)
Theorem notify_posts (event_type : WebhookEventType.t) (data : D)
    (s : state) :
  exists s' : state,
    notify endpoint event_type data s = (inr tt, s') /\
    webhooks s' = webhooks s /\
    posted s'
      = posted s ++
        map (request_for event_type (now (env s)) data)
          (List.filter (subscribed event_type) (webhooks s)).
Proof.
  destruct (notify_run event_type data s) as (s' & Hrun & Hw & _ & Hp & _).
  exists s'. auto.
Qed.

Lemma answers_log_accepted (n : nat) (reqs : list (request (D:=D))) :
  (forall i req, exists c,
     endpoint i req = Status c /\ rejected c = false) ->
  answers_log endpoint n reqs = [].
Proof.
  intros Hok. revert n. induction reqs as [|req reqs IH]; intros n.
  - reflexivity.
  - simpl. rewrite IH. destruct (Hok n req) as (c & -> & Hc).
    unfold rejected in Hc. apply negb_false_iff in Hc. simpl.
    now rewrite Hc.
Qed.

(** X18. [notify] logs one record for each request that was not accepted: a
    warning when the endpoint answered with a status other than 200, 201,
    202 and 204, an error when the post raised; when every endpoint accepts,
    it logs nothing. *)
Theorem notify_logs (event_type : WebhookEventType.t) (data : D)
    (s : state) :
  exists s' : state,
    notify endpoint event_type data s = (inr tt, s') /\
    trace (env s')
      = trace (env s) ++
        answers_log endpoint (length (posted s))
          (map (request_for event_type (now (env s)) data)
             (List.filter (subscribed event_type) (webhooks s))) /\
    ((forall i req, exists c,
        endpoint i req = Status c /\ rejected c = false) ->
     trace (env s') = trace (env s)).
Proof.
  destruct (notify_run event_type data s) as (s' & Hrun & _ & _ & _ & Ht).
  exists s'. split; [exact Hrun|]. split; [exact Ht|].
  intros Hok. rewrite Ht, answers_log_accepted by assumption.
  apply app_nil_r.
Qed.

Lemma requests_without_url (event_type : WebhookEventType.t) (t : Q)
    (data : D) (u : string) (hooks : list WebhookConfig) :
  map (request_for event_type t data)
    (List.filter (subscribed event_type)
       (List.filter (fun w => negb (String.eqb (url w) u)) hooks))
  = List.filter (fun r => negb (String.eqb (post_url r) u))
      (map (request_for event_type t data)
         (List.filter (subscribed event_type) hooks)).
Proof.
  induction hooks as [|w hooks IH]; [reflexivity|].
  cbn [List.filter].
  destruct (String.eqb (url w) u) eqn:Hu; cbn [negb];
    destruct (subscribed event_type w) eqn:Hs; cbn [List.filter map];
    rewrite ?Hs; cbn [map List.filter post_url request_for];
    rewrite ?Hu; cbn [negb]; now rewrite IH.
Qed.

(** X19. [remove_webhook(url)] removes every registration of that URL and
    no other: a later [notify] posts nothing to the URL, and posts to the
    other webhooks exactly what it would have posted to them. *)
Theorem remove_webhook_silences (u : string)
    (event_type : WebhookEventType.t) (data : D) (s : state) :
  exists s1 s2 : state,
    remove_webhook u s = (inr tt, s1) /\
    notify endpoint event_type data s1 = (inr tt, s2) /\
    posted s2
      = posted s ++
        List.filter (fun r => negb (String.eqb (post_url r) u))
          (map (request_for event_type (now (env s)) data)
             (List.filter (subscribed event_type) (webhooks s))) /\
    (forall r, In r (skipn (length (posted s)) (posted s2)) ->
       post_url r <> u).
Proof.
  eexists. 
  destruct (notify_run event_type data
              (set_webhooks
                 (List.filter (fun w => negb (String.eqb (url w) u))) s))
    as (s2 & Hrun & _ & _ & Hp & _).
  exists s2. split; [reflexivity|]. split; [exact Hrun|].
  simpl in Hp. rewrite requests_without_url in Hp.
  split; [exact Hp|].
  intros r. rewrite Hp, skipn_app, skipn_all, Nat.sub_diag. simpl.
  intros Hin. apply filter_In in Hin as [_ Hne].
  apply negb_true_iff, String.eqb_neq in Hne. exact Hne.
Qed.

(** X20. A webhook added with [add_webhook] is notified after all the
    webhooks registered before it (when it is subscribed to the event), and
    adding it changes nothing to what the others are sent. *)
Theorem add_webhook_notified_last (config : WebhookConfig)
    (event_type : WebhookEventType.t) (data : D) (s : state) :
  exists s1 s2 : state,
    add_webhook config s = (inr tt, s1) /\
    notify endpoint event_type data s1 = (inr tt, s2) /\
    posted s2
      = posted s ++
        map (request_for event_type (now (env s)) data)
          (List.filter (subscribed event_type) (webhooks s)) ++
        (if subscribed event_type config
         then [request_for event_type (now (env s)) data config]
         else []).
Proof.
  eexists.
  destruct (notify_run event_type data
              (set_webhooks (fun ws => ws ++ [config]) s))
    as (s2 & Hrun & _ & _ & Hp & _).
  exists s2. split; [reflexivity|]. split; [exact Hrun|].
  simpl in Hp. rewrite Hp, List.filter_app, map_app. cbn [List.filter].
  now destruct (subscribed event_type config).
Qed.

End WebhookProofs.

(** ** RiotDataCollector: the cached lookups *)

Section CollectorProofs.
Import RiotDataCollector.
Context {V R E : Type}.
Variable truthy : V -> bool.
Variable region : string.
Variable _make_request :
  string -> Eff (CacheManager.state (V:=V) * R) (exn E) V.
Variable notify_error :
  error_data (E:=E) -> Eff (CacheManager.state (V:=V) * R) (exn E) unit.

Local Abbreviation cache := (CacheManager.state (V:=V)).
Local Abbreviation summoner :=
  (get_summoner_by_puuid truthy region _make_request notify_error).
Local Abbreviation account :=
  (get_account_by_riot_id truthy region _make_request notify_error).
Local Abbreviation summoner_key :=
  (fun puuid : string => ("summoner_" ++ puuid)%string).
Local Abbreviation summoner_url :=
  (fun puuid : string =>
     (LOL_BASE_URL region ++ "/lol/summoner/v4/summoners/by-puuid/"
        ++ puuid)%string).
Local Abbreviation account_key :=
  (fun game_name tag_line : string =>
     ("account_" ++ game_name ++ "_" ++ tag_line)%string).
Local Abbreviation account_url :=
  (fun game_name tag_line : string =>
     (ACCOUNT_BASE_URL region ++ "/riot/account/v1/accounts/by-riot-id/"
        ++ game_name ++ "/" ++ tag_line)%string).

(** The shape the two lookups share: what a lookup with cache key [key],
    URL [url] and error report [report] does. *)
Local Abbreviation lookup_outcome :=
  (fun (o : CacheManager.write_outcome) (key url : string)
       (report : exn E -> error_data (E:=E)) (s : cache * R) =>
     match CacheManager.get key (fst s) with
     | (inl e, c1) => (inl (exn_cast e), (c1, snd s))
     | (inr cached, c1) =>
         if is_true truthy cached then (inr cached, (c1, snd s))
         else
           match _make_request url (c1, snd s) with
           | (inr data, s2) =>
               (inr (Some data),
                (snd (CacheManager.set o key data (fst s2)), snd s2))
           | (inl e, s2) =>
               match notify_error (report e) s2 with
               | (inr _, s3) => (inl e, s3)
               | (inl e', s3) => (inl e', s3)
               end
           end
     end).

Lemma get_summoner_by_puuid_eq (o : CacheManager.write_outcome)
    (puuid : string) (s : cache * R) :
  summoner o puuid s =
    lookup_outcome o (summoner_key puuid) (summoner_url puuid)
      (fun e => ErrorData e "summoner_by_puuid" [("puuid", puuid)]%string) s.
Proof.
  unfold get_summoner_by_puuid, bind, on_cache, try_except, ret, raise.
  destruct (CacheManager.get _ (fst s)) as [[e|cached] c1]; [reflexivity|].
  destruct (is_true truthy cached); [reflexivity|].
  destruct (_make_request _ (c1, snd s)) as [[e|data] s2].
  - now destruct (notify_error _ s2) as [[e'|[]] s3].
  - now rewrite set_eq.
Qed.

Lemma get_account_by_riot_id_eq (o : CacheManager.write_outcome)
    (game_name tag_line : string) (s : cache * R) :
  account o game_name tag_line s =
    lookup_outcome o (account_key game_name tag_line)
      (account_url game_name tag_line)
      (fun e =>
         ErrorData e "account_by_riot_id"
           [("game_name", game_name); ("tag_line", tag_line)]%string) s.
Proof.
  unfold get_account_by_riot_id, bind, on_cache, try_except, ret, raise.
  destruct (CacheManager.get _ (fst s)) as [[e|cached] c1]; [reflexivity|].
  destruct (is_true truthy cached); [reflexivity|].
  destruct (_make_request _ (c1, snd s)) as [[e|data] s2].
  - now destruct (notify_error _ s2) as [[e'|[]] s3].
  - now rewrite set_eq.
Qed.

(** [get] right after [set] is answered by the memory tier and changes
    nothing. *)
Lemma set_then_get_unchanged (o : CacheManager.write_outcome) (key : string)
    (v : V) (d : Q) (c : cache) :
  (d <= CacheManager.ttl (CacheManager.self c))%Q ->
  let c' := CacheManager.pass d (snd (CacheManager.set o key v c)) in
  CacheManager.get key c' = (inr (Some v), c').
Proof.
  intros Hd c'. unfold c'. rewrite set_eq, get_eq.
  assert (Hfresh :
    Qleb (now (CacheManager.env c) + d - now (CacheManager.env c))
      (CacheManager.ttl (CacheManager.self c)) = true).
  { apply Qleb_le. lra. }
  destruct o; simpl; rewrite lookup_insert_eq; simpl; rewrite Hfresh;
    reflexivity.
Qed.

Lemma set_keeps_ttl (o : CacheManager.write_outcome) (key : string) (v : V)
    (c : cache) :
  CacheManager.ttl (CacheManager.self (snd (CacheManager.set o key v c)))
    = CacheManager.ttl (CacheManager.self c).
Proof. rewrite set_eq. now destruct o. Qed.

(** X21. A summoner is fetched once: when the cache has nothing usable for
    the PUUID and the request succeeds with a payload that is not empty,
    [get_summoner_by_puuid] returns the payload, and a second call within
    the time to live returns it again from the cache, whatever the rest of
    the collector's state is by then and without touching it - so without
    a request. *)
Theorem summoner_fetched_once (o o' : CacheManager.write_outcome)
    (puuid : string) (s : cache * R) (cached : option V) (c1 c2 : cache)
    (data : V) (r2 r' : R) (d : Q) :
  CacheManager.get (summoner_key puuid) (fst s) = (inr cached, c1) ->
  is_true truthy cached = false ->
  _make_request (summoner_url puuid) (c1, snd s) = (inr data, (c2, r2)) ->
  truthy data = true ->
  (d <= CacheManager.ttl (CacheManager.self c2))%Q ->
  exists c3 : cache,
    summoner o puuid s = (inr (Some data), (c3, r2)) /\
    summoner o' puuid (CacheManager.pass d c3, r')
      = (inr (Some data), (CacheManager.pass d c3, r')).
Proof.
  intros Hget Hmiss Hreq Hdata Hd.
  exists (snd (CacheManager.set o (summoner_key puuid) data c2)). split.
  - rewrite get_summoner_by_puuid_eq, Hget, Hmiss. cbn [fst snd].
    now rewrite Hreq.
  - rewrite get_summoner_by_puuid_eq. cbn [fst snd].
    rewrite (set_then_get_unchanged o _ data d c2 Hd). cbn [is_true].
    now rewrite Hdata.
Qed.

(** X22. A failed request is reported and re-raised: when the cache has
    nothing usable and [_make_request] raises, [get_summoner_by_puuid] calls
    [notify_error] once, with that error, the endpoint name and the PUUID,
    and then raises the same error; the cache is not written. *)
Theorem summoner_failure_reported (o : CacheManager.write_outcome)
    (puuid : string) (s s2 s3 : cache * R) (cached : option V) (c1 : cache)
    (e : exn E) :
  CacheManager.get (summoner_key puuid) (fst s) = (inr cached, c1) ->
  is_true truthy cached = false ->
  _make_request (summoner_url puuid) (c1, snd s) = (inl e, s2) ->
  notify_error (ErrorData e "summoner_by_puuid" [("puuid", puuid)]%string) s2
    = (inr tt, s3) ->
  summoner o puuid s = (inl e, s3).
Proof.
  intros Hget Hmiss Hreq Hnotify.
  rewrite get_summoner_by_puuid_eq, Hget, Hmiss. cbn [fst snd].
  now rewrite Hreq, Hnotify.
Qed.

(** X23. An empty payload is cached but never served: after a request that
    succeeded with a payload Python takes for false (an empty dict), the
    next call, even at once, makes the request again and returns its
    result. *)
Theorem summoner_empty_payload_refetched (o o' : CacheManager.write_outcome)
    (puuid : string) (s : cache * R) (cached : option V) (c1 c2 c5 : cache)
    (data data2 : V) (r2 r' r5 : R) (d : Q) :
  CacheManager.get (summoner_key puuid) (fst s) = (inr cached, c1) ->
  is_true truthy cached = false ->
  _make_request (summoner_url puuid) (c1, snd s) = (inr data, (c2, r2)) ->
  truthy data = false ->
  (d <= CacheManager.ttl (CacheManager.self c2))%Q ->
  let c3 := snd (CacheManager.set o (summoner_key puuid) data c2) in
  _make_request (summoner_url puuid) (CacheManager.pass d c3, r')
    = (inr data2, (c5, r5)) ->
  summoner o puuid s = (inr (Some data), (c3, r2)) /\
  CacheManager.get (summoner_key puuid) (CacheManager.pass d c3)
    = (inr (Some data), CacheManager.pass d c3) /\
  exists c6 : cache,
    summoner o' puuid (CacheManager.pass d c3, r')
      = (inr (Some data2), (c6, r5)).
Proof.
  intros Hget Hmiss Hreq Hdata Hd c3 Hreq2.
  assert (Hhit := set_then_get_unchanged o (summoner_key puuid) data d c2 Hd).
  cbv zeta in Hhit. fold c3 in Hhit.
  split; [|split].
  - rewrite get_summoner_by_puuid_eq, Hget, Hmiss. cbn [fst snd].
    now rewrite Hreq.
  - exact Hhit.
  - eexists. rewrite get_summoner_by_puuid_eq. cbn [fst snd].
    rewrite Hhit. cbn [is_true]. rewrite Hdata, Hreq2. reflexivity.
Qed.

(** X24. The cache key of an account is the game name and the tag line
    joined by an underscore, so two Riot IDs that join to the same string
    share one cache entry: after the account of the first was fetched, a
    lookup of the second within the time to live returns the first one's
    payload, without a request. *)
Theorem account_key_collision (o o' : CacheManager.write_outcome)
    (game_name1 tag_line1 game_name2 tag_line2 : string) (s : cache * R)
    (cached : option V) (c1 c2 : cache) (data : V) (r2 r' : R) (d : Q) :
  (game_name1 ++ "_" ++ tag_line1 = game_name2 ++ "_" ++ tag_line2)%string ->
  CacheManager.get (account_key game_name1 tag_line1) (fst s)
    = (inr cached, c1) ->
  is_true truthy cached = false ->
  _make_request (account_url game_name1 tag_line1) (c1, snd s)
    = (inr data, (c2, r2)) ->
  truthy data = true ->
  (d <= CacheManager.ttl (CacheManager.self c2))%Q ->
  exists c3 : cache,
    account o game_name1 tag_line1 s = (inr (Some data), (c3, r2)) /\
    account o' game_name2 tag_line2 (CacheManager.pass d c3, r')
      = (inr (Some data), (CacheManager.pass d c3, r')).
Proof.
  intros Hkey Hget Hmiss Hreq Hdata Hd.
  exists (snd (CacheManager.set o (account_key game_name1 tag_line1) data c2)).
  split.
  - rewrite get_account_by_riot_id_eq, Hget, Hmiss. cbn [fst snd].
    now rewrite Hreq.
  - rewrite get_account_by_riot_id_eq. cbn [fst snd].
    rewrite <- Hkey.
    rewrite (set_then_get_unchanged o _ data d c2 Hd). cbn [is_true].
    now rewrite Hdata.
Qed.

End CollectorProofs.

(** ** The further theorems at concrete inputs *)


Lemma set_overwrites_witness :
  (0 <= CacheManager.ttl (CacheManager.self (empty_cache 3600)))%Q /\
  exists s1 s2 s3,
    CacheManager.set CacheManager.WriteOk "k" 1%nat (empty_cache 3600)
      = (inr tt, s1) /\
    CacheManager.set CacheManager.OpenFails "k" 2%nat
      (CacheManager.pass 10 s1) = (inr tt, s2) /\
    CacheManager.get "k" (CacheManager.pass 0 s2) = (inr (Some 2%nat), s3).
Proof.
  assert (H : (0 <= CacheManager.ttl (CacheManager.self (empty_cache 3600)))%Q)
    by discriminate.
  split; [exact H|].
  exact (set_overwrites CacheManager.WriteOk CacheManager.OpenFails "k"
           1%nat 2%nat 10 0 (empty_cache 3600) H).
Defined.








Lemma retry_nonpositive_witness :
  (-1 <= 0)%Z /\
  ApiUtils.retry_with_backoff failing (-1) 1 (quiet, 0%nat)
    = (inr None, (quiet, 0%nat)).
Proof.
  assert (H : (-1 <= 0)%Z) by discriminate.
  split; [exact H|]. exact (retry_nonpositive failing (-1) 1 quiet 0%nat H).
Defined.


Lemma zeros_nonnegative (n : nat) : Forall (fun d => 0 <= d)%Q (repeat 0%Q n).
Proof.
  induction n as [|n IH]; simpl; constructor; [discriminate | exact IH].
Defined.

(** Ten calls at once on a new limiter of budget ten. *)
Lemma burst_passes_witness :
  Forall (fun d => 0 <= d)%Q (repeat 0%Q 10) /\
  (Z.of_nat (length (repeat 0%Q 10)) <= 10)%Z /\
  (Qsum (repeat 0%Q 10) < 1)%Q /\
  exists rl0 w' rl',
    ApiUtils.__init__ (E:=Empty_set) 10 quiet = (inr rl0, quiet) /\
    ApiUtils.acquire_all (E:=Empty_set) (repeat 0%Q 10) (quiet, rl0)
      = (inr tt, (w', rl')) /\
    trace w' = trace quiet /\
    (now w' == now quiet + Qsum (repeat 0%Q 10))%Q /\
    ApiUtils.request_count rl' = Z.of_nat (length (repeat 0%Q 10)).
Proof.
  assert (H2 : (Z.of_nat (length (repeat 0%Q 10)) <= 10)%Z) by discriminate.
  assert (H3 : (Qsum (repeat 0%Q 10) < 1)%Q) by reflexivity.
  split; [exact (zeros_nonnegative 10)|]. split; [exact H2|].
  split; [exact H3|].
  exact (burst_passes (E:=Empty_set) 10 quiet (repeat 0%Q 10)
           (zeros_nonnegative 10) H2 H3).
Defined.

(** Two calls at once at a budget of two, a third half a second later. *)
Lemma burst_then_sleep_witness :
  Forall (fun d => 0 <= d)%Q (repeat 0%Q 2) /\
  Z.of_nat (length (repeat 0%Q 2)) = 2%Z /\
  (0 <= 1 # 2)%Q /\ (Qsum (repeat 0%Q 2) + (1 # 2) < 1)%Q /\
  exists rl0 w' rl' (x : Q),
    ApiUtils.__init__ (E:=Empty_set) 2 quiet = (inr rl0, quiet) /\
    ApiUtils.acquire_all (E:=Empty_set) (repeat 0%Q 2 ++ [1 # 2]) (quiet, rl0)
      = (inr tt, (w', rl')) /\
    trace w' = trace quiet ++ [Logged DEBUG; Slept x] /\
    (x == 1 - (Qsum (repeat 0%Q 2) + (1 # 2)))%Q /\
    (now w' == now quiet + 1)%Q /\
    ApiUtils.window_start rl' = now w' /\
    ApiUtils.request_count rl' = 1%Z.
Proof.
  assert (H2 : Z.of_nat (length (repeat 0%Q 2)) = 2%Z) by reflexivity.
  assert (H3 : (0 <= 1 # 2)%Q) by discriminate.
  assert (H4 : (Qsum (repeat 0%Q 2) + (1 # 2) < 1)%Q) by reflexivity.
  split; [exact (zeros_nonnegative 2)|]. split; [exact H2|].
  split; [exact H3|]. split; [exact H4|].
  exact (burst_then_sleep (E:=Empty_set) 2 quiet (repeat 0%Q 2) (1 # 2)
           (zeros_nonnegative 2) H2 H3 H4).
Defined.

Lemma zero_budget_sleeps_witness :
  (ApiUtils.requests_per_second closed_limiter <= 0)%Z /\
  (ApiUtils.requests_per_second closed_limiter
     <= ApiUtils.request_count closed_limiter)%Z /\
  exists w' rl' (d : Q),
    ApiUtils.wait_if_needed (E:=Empty_set) (quiet, closed_limiter)
      = (inr tt, (w', rl')) /\
    trace w' = trace quiet ++ [Logged DEBUG; Slept d] /\
    ((1 <= now quiet - ApiUtils.window_start closed_limiter)%Q ->
       (d == 1)%Q) /\
    ((now quiet - ApiUtils.window_start closed_limiter < 1)%Q ->
       (d == 1 - (now quiet - ApiUtils.window_start closed_limiter))%Q) /\
    ApiUtils.window_start rl' = now w' /\
    ApiUtils.request_count rl' = 1%Z.
Proof.
  assert (H1 : (ApiUtils.requests_per_second closed_limiter <= 0)%Z)
    by discriminate.
  assert (H2 : (ApiUtils.requests_per_second closed_limiter
                <= ApiUtils.request_count closed_limiter)%Z) by discriminate.
  split; [exact H1|]. split; [exact H2|].
  exact (zero_budget_sleeps (E:=Empty_set) quiet closed_limiter H1 H2).
Defined.

(** A first lookup on a new collector, answered by the network, and a
    second one at once. *)
Lemma summoner_fetched_once_witness :
  CacheManager.get ("summoner_" ++ "p")%string (fst (new_collector 3600))
    = (inr None, fst (new_collector 3600)) /\
  RiotDataCollector.is_true payload_truthy None = false /\
  request_ok
    (RiotDataCollector.LOL_BASE_URL "tr1"
       ++ "/lol/summoner/v4/summoners/by-puuid/" ++ "p")%string
    (fst (new_collector 3600), snd (new_collector 3600))
    = (inr [7%nat], (fst (new_collector 3600), 1%nat)) /\
  payload_truthy [7%nat] = true /\
  (0 <= CacheManager.ttl (CacheManager.self (fst (new_collector 3600))))%Q /\
  exists c3,
    RiotDataCollector.get_summoner_by_puuid payload_truthy "tr1" request_ok
      notify_nobody CacheManager.WriteOk "p" (new_collector 3600)
      = (inr (Some [7%nat]), (c3, 1%nat)) /\
    RiotDataCollector.get_summoner_by_puuid payload_truthy "tr1" request_ok
      notify_nobody CacheManager.WriteOk "p" (CacheManager.pass 0 c3, 5%nat)
      = (inr (Some [7%nat]), (CacheManager.pass 0 c3, 5%nat)).
Proof.
  assert (H1 : CacheManager.get ("summoner_" ++ "p")%string
                 (fst (new_collector 3600))
               = (inr None, fst (new_collector 3600))) by reflexivity.
  assert (H2 : RiotDataCollector.is_true payload_truthy None = false)
    by reflexivity.
  assert (H3 : request_ok
                 (RiotDataCollector.LOL_BASE_URL "tr1"
                    ++ "/lol/summoner/v4/summoners/by-puuid/" ++ "p")%string
                 (fst (new_collector 3600), snd (new_collector 3600))
               = (inr [7%nat], (fst (new_collector 3600), 1%nat)))
    by reflexivity.
  assert (H4 : payload_truthy [7%nat] = true) by reflexivity.
  assert (H5 : (0 <= CacheManager.ttl
                       (CacheManager.self (fst (new_collector 3600))))%Q)
    by discriminate.
  split; [exact H1|]. split; [exact H2|]. split; [exact H3|].
  split; [exact H4|]. split; [exact H5|].
  exact (summoner_fetched_once payload_truthy "tr1" request_ok notify_nobody
           CacheManager.WriteOk CacheManager.WriteOk "p" (new_collector 3600)
           None (fst (new_collector 3600)) (fst (new_collector 3600))
           [7%nat] 1%nat 5%nat 0 H1 H2 H3 H4 H5).
Defined.

(** A lookup on a new collector whose request fails. *)
Lemma summoner_failure_reported_witness :
  CacheManager.get ("summoner_" ++ "p")%string (fst (new_collector 3600))
    = (inr None, fst (new_collector 3600)) /\
  request_fails
    (RiotDataCollector.LOL_BASE_URL "tr1"
       ++ "/lol/summoner/v4/summoners/by-puuid/" ++ "p")%string
    (fst (new_collector 3600), snd (new_collector 3600))
    = (inl (OpError tt), (fst (new_collector 3600), 1%nat)) /\
  RiotDataCollector.get_summoner_by_puuid payload_truthy "tr1" request_fails
    notify_nobody CacheManager.WriteOk "p" (new_collector 3600)
    = (inl (OpError tt), (fst (new_collector 3600), 1%nat)).
Proof.
  assert (H1 : CacheManager.get ("summoner_" ++ "p")%string
                 (fst (new_collector 3600))
               = (inr None, fst (new_collector 3600))) by reflexivity.
  assert (H3 : request_fails
                 (RiotDataCollector.LOL_BASE_URL "tr1"
                    ++ "/lol/summoner/v4/summoners/by-puuid/" ++ "p")%string
                 (fst (new_collector 3600), snd (new_collector 3600))
               = (inl (OpError tt), (fst (new_collector 3600), 1%nat)))
    by reflexivity.
  split; [exact H1|]. split; [exact H3|].
  exact (summoner_failure_reported payload_truthy "tr1" request_fails
           notify_nobody CacheManager.WriteOk "p" (new_collector 3600)
           (fst (new_collector 3600), 1%nat)
           (fst (new_collector 3600), 1%nat)
           None (fst (new_collector 3600)) (OpError tt)
           H1 eq_refl H3 eq_refl).
Defined.

(** A request answered with the empty payload, and the next lookup. *)
Lemma summoner_empty_payload_refetched_witness :
  payload_truthy [] = false /\
  RiotDataCollector.get_summoner_by_puuid payload_truthy "tr1" request_empty
    notify_nobody CacheManager.WriteOk "p" (new_collector 3600)
    = (inr (Some []),
       (snd (CacheManager.set CacheManager.WriteOk ("summoner_" ++ "p")
               [] (fst (new_collector 3600))), 1%nat)) /\
  CacheManager.get ("summoner_" ++ "p")%string
    (CacheManager.pass 0
       (snd (CacheManager.set CacheManager.WriteOk ("summoner_" ++ "p")
               [] (fst (new_collector 3600)))))
    = (inr (Some []),
       CacheManager.pass 0
         (snd (CacheManager.set CacheManager.WriteOk ("summoner_" ++ "p")
                 [] (fst (new_collector 3600))))) /\
  exists c6,
    RiotDataCollector.get_summoner_by_puuid payload_truthy "tr1" request_empty
      notify_nobody CacheManager.WriteOk "p"
      (CacheManager.pass 0
         (snd (CacheManager.set CacheManager.WriteOk ("summoner_" ++ "p")
                 [] (fst (new_collector 3600)))), 1%nat)
      = (inr (Some []), (c6, 2%nat)).
Proof.
  assert (H4 : payload_truthy [] = false) by reflexivity.
  split; [exact H4|].
  refine (summoner_empty_payload_refetched payload_truthy "tr1" request_empty
            notify_nobody CacheManager.WriteOk CacheManager.WriteOk "p"
            (new_collector 3600) None (fst (new_collector 3600))
            (fst (new_collector 3600)) _ [] [] 1%nat 1%nat 2%nat 0
            _ _ _ H4 _ _).
  - reflexivity.
  - reflexivity.
  - reflexivity.
  - discriminate.
  - reflexivity.
Defined.

(** The Riot IDs [a_b#c] and [a#b_c]. *)
Lemma account_key_collision_witness :
  ("a_b" ++ "_" ++ "c" = "a" ++ "_" ++ "b_c")%string /\
  exists c3,
    RiotDataCollector.get_account_by_riot_id payload_truthy "tr1" request_ok
      notify_nobody CacheManager.WriteOk "a_b" "c" (new_collector 3600)
      = (inr (Some [7%nat]), (c3, 1%nat)) /\
    RiotDataCollector.get_account_by_riot_id payload_truthy "tr1" request_ok
      notify_nobody CacheManager.WriteOk "a" "b_c"
      (CacheManager.pass 0 c3, 1%nat)
      = (inr (Some [7%nat]), (CacheManager.pass 0 c3, 1%nat)).
Proof.
  assert (H : ("a_b" ++ "_" ++ "c" = "a" ++ "_" ++ "b_c")%string)
    by reflexivity.
  split; [exact H|].
  refine (account_key_collision payload_truthy "tr1" request_ok notify_nobody
            CacheManager.WriteOk CacheManager.WriteOk "a_b" "c" "a" "b_c"
            (new_collector 3600) None (fst (new_collector 3600))
            (fst (new_collector 3600)) [7%nat] 1%nat 1%nat 0
            H _ _ _ _ _).
  - reflexivity.
  - reflexivity.
  - reflexivity.
  - reflexivity.
  - discriminate.
Defined.
